(** * NeMo: Jasper ONNX export script, NLLLoss and LeNet5 modules

    Shallow embedding of
      - [scripts/export_jasper_to_onnx.py]  (function [main]),
      - [nemo/collections/cv/modules/losses/nll_loss.py]  (class [NLLLoss]),
      - [nemo/collections/cv/modules/trainables/lenet5.py]  (class [LeNet5]),
    together with the properties of the specification that concern them. *)

From Stdlib Require Import ZArith QArith Reals Lra String Ascii List Bool Lia.
From stdpp Require Import base gmap sets list strings.

Local Open Scope string_scope.
Local Open Scope stdpp_scope.
Local Open Scope list_scope.

(* ===================================================================== *)
(** * Python [str] operations used by the export script                   *)
(* ===================================================================== *)

Module PyStr.

(** [sub in s] *)
Fixpoint contains (sub s : string) : bool :=
  String.prefix sub s
  || match s with
     | "" => false
     | String _ t => contains sub t
     end.

(** [s.endswith(suffix)] *)
Fixpoint endswith (s suffix : string) : bool :=
  String.eqb s suffix
  || match s with
     | "" => false
     | String _ t => endswith t suffix
     end.

(** The scan of [str.replace] for a non-empty pattern: left to right, each
    match of [old] at the current position emits [new] and resumes right
    after the match, so that matches never overlap; [skip] counts the
    characters of the current match that are still to be stepped over. *)
Fixpoint replace_go (old new : string) (skip : nat) (s : string) : string :=
  match s with
  | "" => ""
  | String c t =>
      match skip with
      | S n => replace_go old new n t
      | O =>
          if String.prefix old s
          then new +:+ replace_go old new (String.length old - 1) t
          else String c (replace_go old new 0 t)
      end
  end.

(** With an empty pattern Python inserts [new] before every character and
    at the end. *)
Fixpoint interleave (new s : string) : string :=
  match s with
  | "" => ""
  | String c t => String c (new +:+ interleave new t)
  end.

(** [s.replace(old, new)] *)
Definition replace (old new s : string) : string :=
  match old with
  | "" => new +:+ interleave new s
  | String _ _ => replace_go old new 0 s
  end.

(** Every match that starts in [p] ends in [p]: the scan of [p +:+ r]
    reaches the boundary between the two. *)
Definition inside (old p r : string) : Prop :=
  forall u q, p = u +:+ q -> q <> "" ->
    String.prefix old (q +:+ r) = true -> String.prefix old q = true.

End PyStr.

(* ===================================================================== *)
(** * Python exceptions and results                                       *)
(* ===================================================================== *)

Inductive exn :=
| ValueError (msg : string)
| KeyError (key : string)
| TypeError (msg : string)
| IndexError (msg : string)
| RuntimeError (msg : string)
| OSError (msg : string).

(** The outcome of evaluating a Python expression: a value, or an exception
    that propagates. *)
Inductive result (A : Type) :=
| Ok (a : A)
| Raise (e : exn).
Arguments Ok {A} a.
Arguments Raise {A} e.

Global Instance result_ret : MRet result := fun A a => Ok a.
Global Instance result_bind : MBind result :=
  fun A B f r => match r with Ok a => f a | Raise e => Raise e end.

Definition is_ok {A} (r : result A) : bool :=
  match r with Ok _ => true | Raise _ => false end.

(* ===================================================================== *)
(** * The part of torch the three files call                              *)
(* ===================================================================== *)

(** torch is a collaborator of the repository, not part of it: the
    definitions of this module follow its documented behaviour, for the
    calls the three files make and with the arguments they pass. *)

Module Torch.

(** A tensor: its [shape] and its entries in row-major order.  Entries of
    floating tensors are taken in [Q] (every finite float is a rational), or
    in [R] where exponentials and logarithms are taken; entries of integer
    tensors in [Z].  Arithmetic on the entries is exact: the rounding of
    floats, their overflow to an infinity, and entries that are NaN or
    infinite are outside these definitions. *)
Record tensor (A : Type) := Tensor { shape : list nat; data : list A }.
Arguments Tensor {A} shape data.
Arguments shape {A} t.
Arguments data {A} t.

(** [len(t.shape)] *)
Definition rank {A} (t : tensor A) : nat := length (shape t).

Definition numel (sh : list nat) : nat := foldr Nat.mul 1%nat sh.

Definition well_formed {A} (t : tensor A) : Prop :=
  length (data t) = numel (shape t).

(** [torch.zeros] of the given dimensions: a negative dimension is
    refused. *)
Definition zeros (dims : list Z) : result (tensor Q) :=
  if forallb (Z.leb 0) dims
  then Ok (Tensor (map Z.to_nat dims) (repeat 0%Q (numel (map Z.to_nat dims))))
  else Raise (RuntimeError "Trying to create tensor with negative dimension").

(** A 0-dimensional floating result; [NaN] is what a mean over no element
    gives. *)
Inductive scalar :=
| Finite (q : Q)
| NaN.

(** The objects handed to a criterion. *)
Inductive value :=
| FloatTensor (t : tensor Q)
| LongTensor (t : tensor Z).

Definition ignore_index : Z := (-100)%Z.

(** [input[i, target[i]]] for every row [i] whose target is not
    [ignore_index]; [None] when a target is out of bounds.  [rows] is the
    row-major data of the rows still to visit, [D] the row length. *)
Fixpoint gather (D : nat) (rows : list Q) (targets : list Z) : option (list Q) :=
  match targets with
  | [] => Some []
  | y :: ys =>
      if (y =? ignore_index)%Z then gather D (drop D rows) ys
      else if (0 <=? y)%Z && (y <? Z.of_nat D)%Z then
        x ← rows !! Z.to_nat y;
        xs ← gather D (drop D rows) ys;
        Some (x :: xs)
      else None
  end.

Definition Qsum (xs : list Q) : Q := foldr Qplus 0%Q xs.

(** [reduction='mean'] of the negated picked entries. *)
Definition mean_neg (xs : list Q) : scalar :=
  match xs with
  | [] => NaN
  | _ :: _ => Finite (- Qsum xs / inject_Z (Z.of_nat (length xs)))%Q
  end.

(** [torch.nn.functional.nll_loss(input, target)] with the defaults of
    [torch.nn.NLLLoss()] (no class weights, [ignore_index = -100], mean
    reduction), for the ranks the ports of the module declare: input
    ([B], [D]) and target ([B]). *)
Definition nll_loss (input : tensor Q) (target : tensor Z) : result scalar :=
  match shape input, shape target with
  | [B; D], [B'] =>
      if (B =? B')%nat then
        match gather D (data input) (data target) with
        | Some xs => Ok (mean_neg xs)
        | None => Raise (IndexError "Target out of bounds")
        end
      else Raise (ValueError "Expected input batch_size to match target batch_size")
  | _, _ => Raise (RuntimeError "input and target ranks other than 2 and 1")
  end.

(** Calling a [torch.nn.NLLLoss()] object with positional arguments. *)
Definition NLLLoss (args : list value) : result scalar :=
  match args with
  | [FloatTensor input; LongTensor target] => nll_loss input target
  | [_; _] => Raise (RuntimeError "expected a floating input and a Long target")
  | _ => Raise (TypeError "forward() takes 2 positional arguments")
  end.

(** ** Shapes through the layers of [torch.nn] that LeNet5 stacks *)

Inductive layer :=
| Conv2d (in_channels out_channels kh kw : nat)
| ReLU
| MaxPool2d (kh kw stride : nat)
| Flatten
| Linear (in_features out_features : nat)
| LogSoftmax (dim : nat).

Definition shape_error : result (list nat) :=
  Raise (RuntimeError "shape mismatch").

(** The shape of a layer's output, from the shape of its input (stride 1,
    no padding, no dilation for [Conv2d]; no padding and floor mode for
    [MaxPool2d]; [Flatten] from dimension 1). *)
Definition layer_shape (l : layer) (sh : list nat) : result (list nat) :=
  match l, sh with
  | Conv2d cin cout kh kw, [N; C; H; W] =>
      if (C =? cin)%nat && (kh <=? H)%nat && (kw <=? W)%nat
      then Ok [N; cout; H - kh + 1; W - kw + 1]%nat
      else shape_error
  | Conv2d _ _ _ _, _ => shape_error
  | ReLU, _ => Ok sh
  | MaxPool2d kh kw stride, [N; C; H; W] =>
      if (kh <=? H)%nat && (kw <=? W)%nat && (1 <=? stride)%nat
      then Ok [N; C; (H - kh) / stride + 1; (W - kw) / stride + 1]%nat
      else shape_error
  | MaxPool2d _ _ _, _ => shape_error
  | Flatten, N :: rest => Ok [N; numel rest]
  | Flatten, [] => Ok [1%nat]
  | Linear fin fout, _ =>
      match reverse sh with
      | last :: front =>
          if (last =? fin)%nat then Ok (reverse (fout :: front)) else shape_error
      | [] => shape_error
      end
  | LogSoftmax dim, _ =>
      if (dim <? length sh)%nat then Ok sh else shape_error
  end.

(** [torch.nn.Sequential]: the layers in order. *)
Fixpoint Sequential (layers : list layer) (sh : list nat) : result (list nat) :=
  match layers with
  | [] => Ok sh
  | l :: ls => sh' ← layer_shape l sh; Sequential ls sh'
  end.

(** ** Values through the layers *)

(** What the layers compute, for the shapes [layer_shape] accepts.  The
    entries of the tensors a network computes with are taken in [R]: finite
    numbers, with exact arithmetic in place of the rounding of floats. *)

Definition Rsum (xs : list R) : R := foldr Rplus 0%R xs.

(** The largest entry of a window. *)
Definition Rmax_list (xs : list R) : R :=
  match xs with
  | [] => 0%R
  | x :: rest => foldr Rmax x rest
  end.

(** The position of the entry at index [idx] in the row-major data of a
    tensor of shape [sh]. *)
Definition ravel (sh idx : list nat) : nat :=
  foldl (fun acc '(d, i) => acc * d + i)%nat 0%nat (zip sh idx).

(** [t[idx]], for [t] of shape [sh] with entries [data]. *)
Definition entry (sh : list nat) (data : list R) (idx : list nat) : R :=
  nth (ravel sh idx) data 0%R.

(** The entries [f idx] for every index [idx] of a tensor of shape [sh], in
    row-major order. *)
Fixpoint tabulate (sh : list nat) (f : list nat -> R) : list R :=
  match sh with
  | [] => [f []]
  | d :: rest => flat_map (fun i => tabulate rest (fun idx => f (i :: idx))) (seq 0 d)
  end.

(** The learnable tensors of a layer, row-major; both empty for a layer
    that has none. *)
Record parameters := { weight : list R; bias : list R }.

Definition no_parameters : parameters := {| weight := []; bias := [] |}.

(** The entries of a layer's output, from the shape and the entries of its
    input: [Conv2d] is the cross-correlation with [weight] plus [bias],
    [MaxPool2d] the largest entry of each window, [Linear] the product with
    the transposed [weight] plus [bias], [LogSoftmax] the entry minus the
    logarithm of the sum of the exponentials along [dim]. *)
Definition layer_values (l : layer) (params : parameters) (sh : list nat) (x : list R)
    : list R :=
  match l, sh with
  | Conv2d cin cout kh kw, [N; C; H; W] =>
      tabulate [N; cout; H - kh + 1; W - kw + 1]%nat (fun idx =>
        match idx with
        | [n; co; i; j] =>
            (nth co (bias params) 0
             + Rsum (tabulate [cin; kh; kw] (fun k =>
                 match k with
                 | [ci; u; v] =>
                     entry [cout; cin; kh; kw] (weight params) [co; ci; u; v]
                     * entry sh x [n; ci; i + u; j + v]%nat
                 | _ => 0
                 end)))%R
        | _ => 0%R
        end)
  | ReLU, _ => map (Rmax 0) x
  | MaxPool2d kh kw stride, [N; C; H; W] =>
      tabulate [N; C; (H - kh) / stride + 1; (W - kw) / stride + 1]%nat (fun idx =>
        match idx with
        | [n; c; i; j] =>
            Rmax_list (tabulate [kh; kw] (fun k =>
              match k with
              | [u; v] => entry sh x [n; c; i * stride + u; j * stride + v]%nat
              | _ => 0%R
              end))
        | _ => 0%R
        end)
  | Flatten, _ => x
  | Linear fin fout, _ =>
      let rows := numel (reverse (tail (reverse sh))) in
      tabulate [rows; fout] (fun idx =>
        match idx with
        | [r; o] =>
            (nth o (bias params) 0
             + Rsum (tabulate [fin] (fun k =>
                 match k with
                 | [i] => entry [fout; fin] (weight params) [o; i] * entry [rows; fin] x [r; i]
                 | _ => 0
                 end)))%R
        | _ => 0%R
        end)
  | LogSoftmax dim, _ =>
      let outer := numel (take dim sh) in
      let D := nth dim sh 1%nat in
      let inner := numel (drop (S dim) sh) in
      tabulate [outer; D; inner] (fun idx =>
        match idx with
        | [o; j; k] =>
            (entry [outer; D; inner] x [o; j; k]
             - ln (Rsum (tabulate [D] (fun c =>
                 match c with
                 | [j'] => exp (entry [outer; D; inner] x [o; j'; k])
                 | _ => 0
                 end))))%R
        | _ => 0%R
        end)
  | _, _ => []
  end.

(** One layer applied to a tensor. *)
Definition layer_forward (l : layer) (params : parameters) (x : tensor R)
    : result (tensor R) :=
  sh' ← layer_shape l (shape x);
  Ok (Tensor sh' (layer_values l params (shape x) (data x))).

(** [torch.nn.Sequential] applied to a tensor: the layers in order, each
    with its parameters. *)
Fixpoint Sequential_forward (layers : list (layer * parameters)) (x : tensor R)
    : result (tensor R) :=
  match layers with
  | [] => Ok x
  | (l, params) :: ls => y ← layer_forward l params x; Sequential_forward ls y
  end.

End Torch.

(* ===================================================================== *)
(** * nemo/collections/cv/modules/losses/nll_loss.py                      *)
(* ===================================================================== *)

Module NLLLoss.

(** The one attribute [__init__] sets. *)
Record t := { _criterion : list Torch.value -> result Torch.scalar }.

Definition __init__ : t := {| _criterion := Torch.NLLLoss |}.

(** [**kwargs]: the keyword arguments of a call, in the order they were
    written. *)
Definition kwargs := list (string * Torch.value).

(** [kwargs.values()] *)
Definition values (kw : kwargs) : list Torch.value := map snd kw.

(** [_loss_function]: [self._criterion] called with the values of
    [kwargs], unpacked as positional arguments. *)
Definition _loss_function (self : t) (kw : kwargs) : result Torch.scalar :=
  _criterion self (values kw).

End NLLLoss.

(* ===================================================================== *)
(** * nemo/collections/cv/modules/trainables/lenet5.py                    *)
(* ===================================================================== *)

Module LeNet5.

Import Torch.

(** [self.model], as [__init__] builds it. *)
Definition model : list layer :=
  [ Conv2d 1 6 5 5; ReLU; MaxPool2d 2 2 2;
    Conv2d 6 16 5 5; ReLU; MaxPool2d 2 2 2;
    Conv2d 16 120 5 5; ReLU;
    Flatten;
    Linear 120 84; ReLU;
    Linear 84 10;
    LogSoftmax 1 ].

(** [forward], on shapes: [predictions = self.model(images)]. *)
Definition forward (images : list nat) : result (list nat) :=
  Sequential model images.




End LeNet5.

(* ===================================================================== *)
(** * scripts/export_jasper_to_onnx.py                                    *)
(* ===================================================================== *)

Module export_jasper_to_onnx.

Import Torch.

(** ** The configuration document, as the safe YAML loader returns it *)

#[local] Unset Elimination Schemes.
Inductive yaml :=
| YNull
| YBool (b : bool)
| YInt (n : Z)
| YFloat (q : Q)
| YStr (s : string)
| YSeq (items : list yaml)
| YMap (entries : list (string * yaml)).
#[local] Set Elimination Schemes.

Fixpoint assoc {A} (key : string) (entries : list (string * A)) : option A :=
  match entries with
  | [] => None
  | (k, v) :: rest => if String.eqb k key then Some v else assoc key rest
  end.

(** [o[key]] with a [str] key *)
Definition getitem (o : yaml) (key : string) : result yaml :=
  match o with
  | YMap entries =>
      match assoc key entries with
      | Some v => Ok v
      | None => Raise (KeyError key)
      end
  | YSeq _ => Raise (TypeError "list indices must be integers or slices, not str")
  | YStr _ => Raise (TypeError "string indices must be integers")
  | _ => Raise (TypeError "object is not subscriptable")
  end.

Definition is_str (key : string) (o : yaml) : bool :=
  match o with
  | YStr s => String.eqb s key
  | _ => false
  end.

(** [key in o] with a [str] key *)
Definition py_in (key : string) (o : yaml) : result bool :=
  match o with
  | YMap entries => Ok (match assoc key entries with Some _ => true | None => false end)
  | YSeq items => Ok (existsb (is_str key) items)
  | YStr s => Ok (PyStr.contains key s)
  | _ => Raise (TypeError "argument is not iterable")
  end.

(** [len(o)] *)
Definition py_len (o : yaml) : result Z :=
  match o with
  | YMap entries => Ok (Z.of_nat (length entries))
  | YSeq items => Ok (Z.of_nat (length items))
  | YStr s => Ok (Z.of_nat (String.length s))
  | _ => Raise (TypeError "object has no len()")
  end.

(** Unpacking [o] as the keyword arguments of a call. *)
Definition unpack (o : yaml) : result (list (string * yaml)) :=
  match o with
  | YMap entries => Ok entries
  | _ => Raise (TypeError "argument after ** must be a mapping")
  end.

(** A size of [torch.zeros] after the first one, when it came from the
    configuration: an [int], or a [bool], which [torch.zeros] takes there as
    1 or 0; anything else is refused. *)
Definition as_int (o : yaml) : result Z :=
  match o with
  | YInt n => Ok n
  | YBool b => Ok (Z.b2z b)
  | _ => Raise (TypeError "zeros(): argument 'size' must be tuple of ints")
  end.

(** ** [os.path.split] (posixpath) *)

Definition sep : ascii := "/"%char.

(** [(p[:i], p[i:])] for [i = p.rfind('/') + 1] *)
Fixpoint cut_after_last_sep (p : string) : string * string :=
  match p with
  | "" => ("", "")
  | String c t =>
      let '(head, tail) := cut_after_last_sep t in
      if String.eqb head "" && negb (Ascii.eqb c sep)
      then ("", String c tail)
      else (String c head, tail)
  end.

(** [s == '/' * len(s)] *)
Fixpoint all_sep (s : string) : bool :=
  match s with
  | "" => true
  | String c t => Ascii.eqb c sep && all_sep t
  end.

(** [s.rstrip('/')] *)
Fixpoint rstrip_sep (s : string) : string :=
  match s with
  | "" => ""
  | String c t =>
      match rstrip_sep t with
      | "" => if Ascii.eqb c sep then "" else String c ""
      | r => String c r
      end
  end.

Definition os_path_split (p : string) : string * string :=
  let '(head, tail) := cut_after_last_sep p in
  if negb (String.eqb head "") && negb (all_sep head)
  then (rstrip_sep head, tail)
  else (head, tail).

(** ** The world outside the script *)

(** The modules the script builds. *)
Inductive module :=
| Encoder
| DecoderForCTC
| DecoderForClassification.

Definition is_decoder (m : module) : bool :=
  match m with Encoder => false | _ => true end.

(** What the file system has to provide: [os.path.exists], [os.makedirs]
    and the effect of an export that wrote its file.  A directory that was
    made exists, and neither making a directory nor writing a file removes
    a path. *)
Class FileSystem (fs : Type) := {
  os_path_exists : fs -> string -> bool;
  os_makedirs : fs -> string -> result fs;
  written : fs -> string -> fs;
  makedirs_exists : forall s d s',
    os_makedirs s d = Ok s' -> os_path_exists s' d = true;
  makedirs_keeps : forall s d s' p,
    os_makedirs s d = Ok s' -> os_path_exists s p = true -> os_path_exists s' p = true;
  written_keeps : forall s f p,
    os_path_exists s p = true -> os_path_exists (written s f) p = true;
}.

(** A file system as the set of the paths that exist; [os.makedirs] raises
    on a path that exists. *)
Definition set_exists (s : gset string) (p : string) : bool := bool_decide (p ∈ s).
Definition set_makedirs (s : gset string) (d : string) : result (gset string) :=
  if set_exists s d then Raise (OSError "File exists") else Ok ({[d]} ∪ s).
Definition set_written (s : gset string) (f : string) : gset string := {[f]} ∪ s.

(** A file system that tells regular files from directories: the kind of
    every path that exists.  [os.path.exists] holds of both kinds,
    [os.path.isdir] of directories only. *)
Inductive kind := RegularFile | Directory.

Definition kinds_exists (t : gmap string kind) (p : string) : bool :=
  match t !! p with Some _ => true | None => false end.
Definition kinds_isdir (t : gmap string kind) (p : string) : bool :=
  match t !! p with Some Directory => true | _ => false end.
Definition kinds_makedirs (t : gmap string kind) (d : string)
    : result (gmap string kind) :=
  if kinds_exists t d then Raise (OSError "File exists") else Ok (<[d := Directory]> t).
Definition kinds_written (t : gmap string kind) (f : string) : gmap string kind :=
  <[f := RegularFile]> t.

(** The calls that leave the script, in the order they are made.  An export
    is recorded with the state of the file system it was called in. *)
Inductive event (fs : Type) :=
| LoggingInfo (msg : string)
| LoggingInfoFormat (msg : string) (arg : yaml)
| OpenConfig (path : string)
| NeuralModuleFactory
| Construct (m : module) (kwargs : list (string * yaml))
| TorchLoad (path : string)
| LoadStateDict (new_ckpt : gmap string (tensor Q))
| RestoreFrom (m : module) (path : string)
| Makedirs (path : string)
| DeploymentExport (m : module) (path : string) (dummy : tensor Q) (s : fs).
Arguments LoggingInfo {fs} msg.
Arguments LoggingInfoFormat {fs} msg arg.
Arguments OpenConfig {fs} path.
Arguments NeuralModuleFactory {fs}.
Arguments Construct {fs} m kwargs.
Arguments TorchLoad {fs} path.
Arguments LoadStateDict {fs} new_ckpt.
Arguments RestoreFrom {fs} m path.
Arguments Makedirs {fs} path.
Arguments DeploymentExport {fs} m path dummy s.

Definition is_export {fs} (ev : event fs) : bool :=
  match ev with DeploymentExport _ _ _ _ => true | _ => false end.

(** Reading a checkpoint file, or loading weights into a module. *)
Definition reads_checkpoint {fs} (ev : event fs) : bool :=
  match ev with
  | TorchLoad _ | LoadStateDict _ | RestoreFrom _ _ => true
  | _ => false
  end.

Definition constructs_model {fs} (ev : event fs) : bool :=
  match ev with Construct _ _ => true | _ => false end.

Definition constructs_decoder {fs} (ev : event fs) : bool :=
  match ev with Construct m _ => is_decoder m | _ => false end.

(** The calls of lines 54-88. *)
Definition setup_event {fs} (ev : event fs) : bool :=
  match ev with
  | LoggingInfo _ | LoggingInfoFormat _ _ | OpenConfig _
  | NeuralModuleFactory | Construct _ _ => true
  | _ => false
  end.

(** The calls of lines 54-70. *)
Definition encoder_setup_event {fs} (ev : event fs) : bool :=
  match ev with
  | LoggingInfo _ | LoggingInfoFormat _ _ | OpenConfig _
  | NeuralModuleFactory | Construct Encoder _ => true
  | _ => false
  end.

(** The calls of lines 92-114. *)
Definition loading_event {fs} (ev : event fs) : bool :=
  match ev with
  | LoggingInfo _ | TorchLoad _ | LoadStateDict _ | RestoreFrom _ _
  | Makedirs _ => true
  | _ => false
  end.

(** How the collaborators answer: each call returns or raises. *)
Record env := {
  yaml_load : string -> result yaml;
  new_factory : result unit;
  construct : module -> list (string * yaml) -> result unit;
  torch_load : string -> result (list (string * tensor Q));
  load_state_dict : gmap string (tensor Q) -> result unit;
  restore_from : module -> string -> result unit;
  cuda : result unit;
  deployment_export : module -> string -> tensor Q -> result unit;
}.

(** ** The legacy checkpoint conversion (the body of the [for] loop) *)

Definition new_k (k : string) (v : tensor Q) : string :=
  let new_k := PyStr.replace ".conv." ".mconv." k in
  if (rank v =? 3)%nat
  then PyStr.replace ".weight" ".conv.weight" new_k
  else new_k.

(** [new_ckpt] after the loop over [ckpt.items()] *)
Definition convert (ckpt : list (string * tensor Q)) : gmap string (tensor Q) :=
  foldl (fun new_ckpt '(k, v) => <[new_k k v := v]> new_ckpt) ∅ ckpt.

(** ** [main] *)

Section Main.

Context {fs : Type} `{FileSystem fs}.

(** A run: from the state of the file system to an outcome, the state left
    behind and the calls made. *)
Definition M (A : Type) : Type := fs -> result A * fs * list (event fs).

Global Instance M_ret : MRet M := fun A a s => (Ok a, s, []).
Global Instance M_bind : MBind M := fun A B f m s =>
  match m s with
  | (Ok a, s', tr) => let '(r, s'', tr') := f a s' in (r, s'', tr ++ tr')
  | (Raise e, s', tr) => (Raise e, s', tr)
  end.

Definition raise {A} (e : exn) : M A := fun s => (Raise e, s, []).
Definition lift {A} (r : result A) : M A := fun s => (r, s, []).
Definition emit (ev : event fs) : M unit := fun s => (Ok tt, s, [ev]).
(** A call to a collaborator: made, then answered. *)
Definition call {A} (ev : event fs) (r : result A) : M A := fun s => (r, s, [ev]).

Definition outcome {A} (x : result A * fs * list (event fs)) : result A := x.1.1.
Definition final {A} (x : result A * fs * list (event fs)) : fs := x.1.2.
Definition trace {A} (x : result A * fs * list (event fs)) : list (event fs) := x.2.

Definition num_encoder_input_features : Z := 64.

(** Lines 54-58. *)
Definition loading_config_file (E : env) (config_file : string) : M yaml :=
  emit (LoggingInfo "Loading config file...");;
  call (OpenConfig config_file) (yaml_load E config_file).

(** Lines 60-65: [(decoder_params, num_decoder_input_features)]. *)
Definition determining_model_shape (jasper_model_definition : yaml) : M (yaml * yaml) :=
  emit (LoggingInfo "Determining model shape...");;
  decoder_params ← lift (init_params ← getitem jasper_model_definition "init_params";
                         decoder ← getitem init_params "decoder_params";
                         getitem decoder "init_params");
  num_decoder_input_features ← lift (getitem decoder_params "feat_in");
  emit (LoggingInfoFormat "  Num encoder input features: {}" (YInt num_encoder_input_features));;
  emit (LoggingInfoFormat "  Num decoder input features: {}" num_decoder_input_features);;
  mret (decoder_params, num_decoder_input_features).

(** Lines 67-70. *)
Definition initializing_encoder (E : env) (jasper_model_definition : yaml) : M unit :=
  call NeuralModuleFactory (new_factory E);;
  emit (LoggingInfo "Initializing models...");;
  kwargs ← lift (init_params ← getitem jasper_model_definition "init_params";
                 encoder ← getitem init_params "encoder_params";
                 params ← getitem encoder "init_params";
                 unpack params);
  call (Construct Encoder kwargs) (construct E Encoder kwargs).

(** Lines 72-88: the decoder that was built. *)
Definition initializing_decoder (E : env) (jasper_model_definition decoder_params
    num_decoder_input_features : yaml) (decoder_type : string) : M module :=
  if String.eqb decoder_type "ctc" then
    num_classes ← lift (getitem decoder_params "num_classes");
    vocabulary ← lift (getitem decoder_params "vocabulary");
    let kwargs := [("feat_in", num_decoder_input_features);
                   ("num_classes", num_classes);
                   ("vocabulary", vocabulary)] in
    call (Construct DecoderForCTC kwargs) (construct E DecoderForCTC kwargs);;
    mret DecoderForCTC
  else if String.eqb decoder_type "classification" then
    has_labels ← lift (py_in "labels" jasper_model_definition);
    num_classes ←
      (if has_labels : bool
       then lift (labels ← getitem jasper_model_definition "labels"; py_len labels)
       else raise (ValueError
         "List of class labels must be defined in model config file with key 'labels'"));
    let kwargs := [("feat_in", num_decoder_input_features);
                   ("num_classes", YInt num_classes)] in
    call (Construct DecoderForClassification kwargs)
         (construct E DecoderForClassification kwargs);;
    mret DecoderForClassification
  else raise (ValueError "`decoder_type` must be one of ['ctc', 'classification']").

(** Lines 92-105. *)
Definition loading_checkpoints (E : env) (pre_v09_model : bool)
    (nn_encoder nn_decoder : string) (jasper_decoder : module) : M unit :=
  emit (LoggingInfo "Loading checkpoints...");;
  (if pre_v09_model then
     emit (LoggingInfo "  Converting pre v0.9 checkpoint...");;
     ckpt ← call (TorchLoad nn_encoder) (torch_load E nn_encoder);
     let new_ckpt := convert ckpt in
     call (LoadStateDict new_ckpt) (load_state_dict E new_ckpt)
   else
     call (RestoreFrom Encoder nn_encoder) (restore_from E Encoder nn_encoder));;
  call (RestoreFrom jasper_decoder nn_decoder) (restore_from E jasper_decoder nn_decoder).

Definition path_exists (p : string) : M bool :=
  fun s => (Ok (os_path_exists s p), s, []).

Definition makedirs (d : string) : M unit :=
  fun s => match os_makedirs s d with
           | Ok s' => (Ok tt, s', [Makedirs d])
           | Raise e => (Raise e, s, [Makedirs d])
           end.

(** Lines 108-110, and again 112-114. *)
Definition create_export_directory (nn_onnx : string) : M unit :=
  let '(base_export_dir, export_fn) := os_path_split nn_onnx in
  if String.eqb base_export_dir "" then mret tt
  else
    there ← path_exists base_export_dir;
    if there : bool then mret tt else makedirs base_export_dir.

(** [torch.zeros(first, *rest, dtype=torch.float, device="cuda:0")]: the
    first size is an [int] of the script, the others may come from the
    configuration. *)
Definition zeros_on_cuda (E : env) (first : Z) (rest : list yaml) : result (tensor Q) :=
  sizes ← (fix ints (l : list yaml) : result (list Z) :=
             match l with
             | [] => Ok []
             | o :: rest => n ← as_int o; ns ← ints rest; Ok (n :: ns)
             end) rest;
  dummy ← zeros (first :: sizes);
  cuda E;;
  Ok dummy.

(** [nf.deployment_export(module, path, ONNX, dummy)]: when it returns, the
    file is written. *)
Definition nf_deployment_export (E : env) (m : module) (path : string)
    (dummy : tensor Q) : M unit :=
  fun s =>
    match deployment_export E m path dummy with
    | Ok _ => (Ok tt, written s path, [DeploymentExport m path dummy s])
    | Raise e => (Raise e, s, [DeploymentExport m path dummy s])
    end.

(** One export: the dummy input is built, then the export is called. *)
Definition export_module (E : env) (m : module) (path : string) (first : Z)
    (rest : list yaml) : M unit :=
  dummy ← lift (zeros_on_cuda E first rest);
  nf_deployment_export E m path dummy.

(** Lines 116-132. *)
Definition exporting (E : env) (jasper_decoder : module) (nn_onnx_encoder nn_onnx_decoder : string)
    (batch_size time_steps : Z) (num_decoder_input_features : yaml) : M unit :=
  emit (LoggingInfo "Exporting encoder...");;
  export_module E Encoder nn_onnx_encoder
    batch_size [YInt num_encoder_input_features; YInt time_steps];;
  emit (LoggingInfo "Exporting decoder...");;
  export_module E jasper_decoder nn_onnx_decoder
    batch_size [num_decoder_input_features; YInt (time_steps / 2)];;
  emit (LoggingInfo "Export completed successfully.").

(** Lines 54-70: everything before the choice of the decoder. *)
Definition before_decoder (E : env) (config_file : string) : M (yaml * yaml * yaml) :=
  jasper_model_definition ← loading_config_file E config_file;
  '(decoder_params, num_decoder_input_features) ←
     determining_model_shape jasper_model_definition;
  initializing_encoder E jasper_model_definition;;
  mret (jasper_model_definition, decoder_params, num_decoder_input_features).

Definition main (E : env)
    (config_file nn_encoder nn_decoder nn_onnx_encoder nn_onnx_decoder : string)
    (pre_v09_model : bool) (batch_size time_steps : Z) (decoder_type : string) : M unit :=
  '(jasper_model_definition, decoder_params, num_decoder_input_features) ←
     before_decoder E config_file;
  jasper_decoder ← initializing_decoder E jasper_model_definition decoder_params
                     num_decoder_input_features decoder_type;
  loading_checkpoints E pre_v09_model nn_encoder nn_decoder jasper_decoder;;
  create_export_directory nn_onnx_encoder;;
  create_export_directory nn_onnx_decoder;;
  exporting E jasper_decoder nn_onnx_encoder nn_onnx_decoder batch_size time_steps
    num_decoder_input_features.

End Main.

(** ** The stages of a run, for the statements about [main] *)

Definition is_makedirs {fs} (ev : event fs) : bool :=
  match ev with Makedirs _ => true | _ => false end.

(** The calls of lines 92-105. *)
Definition checkpoint_stage_event {fs} (ev : event fs) : bool :=
  match ev with
  | LoggingInfo _ | TorchLoad _ | LoadStateDict _ | RestoreFrom _ _ => true
  | _ => false
  end.

(** The calls of lines 116-132. *)
Definition export_stage_event {fs} (ev : event fs) : bool :=
  match ev with
  | LoggingInfo _ | DeploymentExport _ _ _ _ => true
  | _ => false
  end.

(** Lines 107-132: what [main] does once the weights are loaded. *)
Definition finishing {fs} `{FileSystem fs} (E : env) (jasper_decoder : module)
    (nn_onnx_encoder nn_onnx_decoder : string) (batch_size time_steps : Z)
    (num_decoder_input_features : yaml) : M unit :=
  create_export_directory nn_onnx_encoder;;
  create_export_directory nn_onnx_decoder;;
  exporting E jasper_decoder nn_onnx_encoder nn_onnx_decoder batch_size time_steps
    num_decoder_input_features.

(** [jasper_model_definition['init_params']['decoder_params']['init_params']] *)
Definition decoder_params_of (jasper_model_definition : yaml) : result yaml :=
  init_params ← getitem jasper_model_definition "init_params";
  decoder ← getitem init_params "decoder_params";
  getitem decoder "init_params".

(** [jasper_model_definition['init_params']['encoder_params']['init_params']],
    unpacked. *)
Definition encoder_kwargs_of (jasper_model_definition : yaml)
    : result (list (string * yaml)) :=
  init_params ← getitem jasper_model_definition "init_params";
  encoder ← getitem init_params "encoder_params";
  params ← getitem encoder "init_params";
  unpack params.

(** The last message of a run that returns. *)
Definition success_message : string := "Export completed successfully.".

(** The events of lines 54-65. *)
Definition reads_config {fs} (ev : event fs) : bool :=
  match ev with
  | LoggingInfo _ | LoggingInfoFormat _ _ | OpenConfig _ => true
  | _ => false
  end.

(** The keys of [new_ckpt], in the order they are written. *)
Definition renamed (ckpt : list (string * tensor Q)) : list string :=
  map (fun '(k, v) => new_k k v) ckpt.

(** ** A small world to run the script in *)

(** A configuration for a CTC model, and collaborators that answer every
    call. *)
Definition ctc_config : yaml :=
  YMap [("init_params", YMap [
    ("encoder_params", YMap [("init_params", YMap [("feat_in", YInt 64)])]);
    ("decoder_params", YMap [("init_params", YMap [
       ("feat_in", YInt 4); ("num_classes", YInt 28);
       ("vocabulary", YSeq [YStr "a"; YStr "b"])])])])].

(** The same model, with the decoder's [feat_in] written as [true]. *)
Definition flag_config : yaml :=
  YMap [("init_params", YMap [
    ("encoder_params", YMap [("init_params", YMap [("feat_in", YInt 64)])]);
    ("decoder_params", YMap [("init_params", YMap [
       ("feat_in", YBool true); ("num_classes", YInt 28);
       ("vocabulary", YSeq [YStr "a"; YStr "b"])])])])].

Definition answering (document : yaml) : env := {|
  yaml_load := fun _ => Ok document;
  new_factory := Ok tt;
  construct := fun _ _ => Ok tt;
  torch_load := fun _ => Ok [];
  load_state_dict := fun _ => Ok tt;
  restore_from := fun _ _ => Ok tt;
  cuda := Ok tt;
  deployment_export := fun _ _ _ => Ok tt;
|}.

(** The same collaborators, with an export that cannot write its file. *)
Definition export_refused (document : yaml) : env := {|
  yaml_load := fun _ => Ok document;
  new_factory := Ok tt;
  construct := fun _ _ => Ok tt;
  torch_load := fun _ => Ok [];
  load_state_dict := fun _ => Ok tt;
  restore_from := fun _ _ => Ok tt;
  cuda := Ok tt;
  deployment_export := fun _ _ _ => Raise (OSError "Not a directory");
|}.

End export_jasper_to_onnx.

(* ===================================================================== *)
(** * Inputs of the classifier and of the criterion                       *)
(* ===================================================================== *)



(** A target the criterion takes: [ignore_index], which it skips, or a class
    of the [D] there are. *)
Definition valid_target (D : nat) (y : Z) : Prop :=
  y = Torch.ignore_index \/ (0 <= y < Z.of_nat D)%Z.

(* ===================================================================== *)
(** * The model on concrete inputs                                        *)
(* ===================================================================== *)

Example replace_all_segments :
  PyStr.replace ".conv." ".mconv." "enc.0.conv.1.conv.weight" = "enc.0.mconv.1.mconv.weight".
Proof. reflexivity. Qed.

Example replace_empty_pattern : PyStr.replace "" "-" "abc" = "-a-b-c-".
Proof. reflexivity. Qed.

Example replace_does_not_overlap : PyStr.replace "aa" "b" "aaaaa" = "bba".
Proof. reflexivity. Qed.

Example split_directory :
  export_jasper_to_onnx.os_path_split "out/onnx//encoder.onnx" = ("out/onnx", "encoder.onnx").
Proof. reflexivity. Qed.

Example split_no_directory :
  export_jasper_to_onnx.os_path_split "encoder.onnx" = ("", "encoder.onnx").
Proof. reflexivity. Qed.

Example split_root :
  export_jasper_to_onnx.os_path_split "/encoder.onnx" = ("/", "encoder.onnx").
Proof. reflexivity. Qed.

(* ===================================================================== *)
(** * Facts about the string operations                                   *)
(* ===================================================================== *)

Section StringFacts.

#[local] Arguments String.append !s1 s2 / : simpl nomatch.

Import PyStr.

Lemma str_app_assoc (a b c : string) : (a +:+ b) +:+ c = a +:+ (b +:+ c).
Proof. induction a as [|x a IH]; simpl; [reflexivity | now rewrite IH]. Qed.

Lemma str_app_nil_r (a : string) : a +:+ "" = a.
Proof. induction a as [|x a IH]; simpl; [reflexivity | now rewrite IH]. Qed.

Lemma str_length_app (a b : string) :
  String.length (a +:+ b) = (String.length a + String.length b)%nat.
Proof. induction a as [|x a IH]; simpl; [reflexivity | now rewrite IH]. Qed.

Lemma str_app_cons (c : ascii) (a b : string) :
  String c a +:+ b = String c (a +:+ b).
Proof. reflexivity. Qed.

Lemma str_app_nil_l (a : string) : "" +:+ a = a.
Proof. reflexivity. Qed.

Lemma prefix_cons (a b : ascii) (s1 s2 : string) :
  String.prefix (String a s1) (String b s2) =
  if ascii_dec a b then String.prefix s1 s2 else false.
Proof. reflexivity. Qed.

Lemma prefix_nil_l (s : string) : String.prefix "" s = true.
Proof. now destruct s. Qed.

Lemma prefix_app (p r : string) : String.prefix p (p +:+ r) = true.
Proof.
  induction p as [|x p IH]; simpl; [now destruct r|].
  destruct (ascii_dec x x); [exact IH | congruence].
Qed.

Lemma prefix_inv (p s : string) :
  String.prefix p s = true -> exists r, s = p +:+ r.
Proof.
  revert s. induction p as [|x p IH]; intros s Hp.
  - exists s. reflexivity.
  - destruct s as [|y s]; simpl in Hp; [discriminate|].
    destruct (ascii_dec x y) as [->|]; [|discriminate].
    destruct (IH _ Hp) as [r ->]. exists r. reflexivity.
Qed.

Lemma prefix_app_l (old q r : string) :
  String.prefix old q = true -> String.prefix old (q +:+ r) = true.
Proof.
  intros [t ->]%prefix_inv. rewrite str_app_assoc. apply prefix_app.
Qed.

Lemma prefix_nil_r (old : string) : old <> "" -> String.prefix old "" = false.
Proof. destruct old; [congruence | reflexivity]. Qed.

Lemma contains_cons (sub : string) (c : ascii) (t : string) :
  contains sub (String c t) = String.prefix sub (String c t) || contains sub t.
Proof. reflexivity. Qed.

Lemma contains_prefix (sub s : string) :
  String.prefix sub s = true -> contains sub s = true.
Proof.
  intros Hp.
  destruct s as [|c t];
    [change (String.prefix sub "" || false = true) | rewrite contains_cons];
    rewrite Hp; reflexivity.
Qed.

Lemma contains_intro (sub p q : string) : contains sub (p +:+ sub +:+ q) = true.
Proof.
  induction p as [|x p IH]; simpl.
  - apply contains_prefix, prefix_app.
  - rewrite IH. apply orb_true_r.
Qed.

Lemma contains_inv (sub s : string) :
  contains sub s = true -> exists p q, s = p +:+ sub +:+ q.
Proof.
  induction s as [|x s IH]; intros Hc.
  - change (String.prefix sub "" || false = true) in Hc.
    rewrite orb_false_r in Hc. apply prefix_inv in Hc as [r ->]. now exists "", r.
  - rewrite contains_cons in Hc. apply orb_true_iff in Hc as [Hp|Hc].
    + apply prefix_inv in Hp as [r ->]. now exists "", r.
    + destruct (IH Hc) as (p & q & ->). now exists (String x p), q.
Qed.

Lemma endswith_app (u suffix : string) : endswith (u +:+ suffix) suffix = true.
Proof.
  induction u as [|x u IH].
  - simpl. destruct suffix; simpl; rewrite ?String.eqb_refl, ?Ascii.eqb_refl; reflexivity.
  - simpl. rewrite IH. apply orb_true_r.
Qed.

(** ** The scan of [replace] *)

Lemma replace_go_cons (old new : string) (c : ascii) (t : string) :
  replace_go old new 0 (String c t) =
  if String.prefix old (String c t)
  then new +:+ replace_go old new (String.length old - 1) t
  else String c (replace_go old new 0 t).
Proof. reflexivity. Qed.

Lemma replace_go_skip (old new p r : string) :
  replace_go old new (String.length p) (p +:+ r) = replace_go old new 0 r.
Proof.
  induction p as [|x p IH]; simpl; [|exact IH].
  destruct r; reflexivity.
Qed.

(** A match at the head is replaced and the scan resumes after it. *)
Lemma replace_go_match (old new r : string) :
  old <> "" ->
  replace_go old new 0 (old +:+ r) = new +:+ replace_go old new 0 r.
Proof.
  intros Hne. destruct old as [|a old']; [congruence|].
  change (String a old' +:+ r) with (String a (old' +:+ r)).
  rewrite replace_go_cons.
  change (String a (old' +:+ r)) with (String a old' +:+ r).
  rewrite prefix_app.
  replace (String.length (String a old') - 1)%nat with (String.length old')
    by (simpl; lia).
  now rewrite replace_go_skip.
Qed.

Lemma replace_go_app (old new : string) :
  old <> "" ->
  forall n p r, (String.length p <= n)%nat -> inside old p r ->
    replace_go old new 0 (p +:+ r) =
    replace_go old new 0 p +:+ replace_go old new 0 r.
Proof.
  intros Hne. induction n as [|n IH]; intros [|c p] r Hlen Hin;
    try reflexivity; simpl in Hlen; [lia|].
  change (String c p +:+ r) with (String c (p +:+ r)).
  rewrite !replace_go_cons.
  change (String c (p +:+ r)) with (String c p +:+ r).
  destruct (String.prefix old (String c p +:+ r)) eqn:Hpre.
  - assert (Hp : String.prefix old (String c p) = true)
      by (apply (Hin "" (String c p)); [reflexivity | congruence | exact Hpre]).
    rewrite Hp. destruct (prefix_inv _ _ Hp) as [p'' Heq].
    destruct old as [|a old']; [congruence|].
    simpl in Heq. injection Heq as -> ->.
    replace (String.length (String a old') - 1)%nat with (String.length old')
      by (simpl; lia).
    rewrite str_app_assoc, !replace_go_skip, str_app_assoc. f_equal.
    apply IH.
    + rewrite str_length_app in Hlen. lia.
    + intros u q -> Hq Hpq.
      apply (Hin (String a old' +:+ u) q); [|exact Hq|exact Hpq].
      now rewrite str_app_assoc.
  - destruct (String.prefix old (String c p)) eqn:Hp.
    + apply (prefix_app_l _ _ r) in Hp. congruence.
    + simpl. f_equal. apply IH; [lia|].
      intros u q -> Hq Hpq. now apply (Hin (String c u) q).
Qed.

Lemma replace_nonempty (old new s : string) :
  old <> "" -> replace old new s = replace_go old new 0 s.
Proof. destruct old; [congruence | reflexivity]. Qed.

Lemma replace_app (old new p r : string) :
  old <> "" -> inside old p r ->
  replace old new (p +:+ r) = replace old new p +:+ replace old new r.
Proof.
  intros Hne Hin. rewrite !replace_nonempty by assumption.
  now apply (replace_go_app _ _ Hne (String.length p)).
Qed.

Lemma replace_match (old new r : string) :
  old <> "" -> replace old new (old +:+ r) = new +:+ replace old new r.
Proof.
  intros Hne. rewrite !replace_nonempty by assumption.
  now apply replace_go_match.
Qed.

(** An occurrence of [old] that the scan reaches is replaced, and what
    precedes and follows it is rewritten on its own. *)
Lemma replace_occurrence (old new p s : string) :
  old <> "" -> inside old p (old +:+ s) ->
  replace old new (p +:+ old +:+ s) =
  replace old new p +:+ new +:+ replace old new s.
Proof.
  intros Hne Hin. rewrite replace_app by assumption.
  now rewrite replace_match.
Qed.

(** Without an occurrence nothing changes. *)
Lemma replace_absent (old new s : string) :
  old <> "" -> contains old s = false -> replace old new s = s.
Proof.
  intros Hne. rewrite replace_nonempty by assumption.
  induction s as [|c s IH]; [reflexivity|].
  rewrite contains_cons, replace_go_cons.
  intros [-> Hs]%orb_false_iff. now rewrite IH.
Qed.

(** With an occurrence, [new] appears in the result. *)
Lemma replace_present (old new s : string) :
  old <> "" -> contains old s = true -> contains new (replace old new s) = true.
Proof.
  intros Hne. rewrite replace_nonempty by assumption.
  induction s as [|c s IH].
  - intros Hc. change (String.prefix old "" || false = true) in Hc.
    rewrite prefix_nil_r in Hc by assumption. discriminate.
  - rewrite contains_cons, replace_go_cons.
    destruct (String.prefix old (String c s)); simpl orb.
    + intros _. apply (contains_intro new "").
    + intros Hs. rewrite contains_cons, (IH Hs). apply orb_true_r.
Qed.

End StringFacts.

(* ===================================================================== *)
(** * The legacy checkpoint conversion                                    *)
(* ===================================================================== *)

Section Conversion.

Import PyStr Torch export_jasper_to_onnx.

#[local] Arguments String.append !s1 s2 / : simpl nomatch.

(** Case analysis on where a match of a literal pattern can start: compare
    the next character, or look at the next character of the text before
    the boundary. *)
Ltac scan H :=
  repeat (rewrite ?str_app_cons, ?str_app_nil_l, ?prefix_cons in H;
          match type of H with
          | false = true => discriminate H
          | context [ascii_dec ?a ?b] =>
              destruct (ascii_dec a b) as [?E|?E];
                [try discriminate E; subst | discriminate H]
          | String.prefix _ (?q +:+ _) = true =>
              is_var q; destruct q as [|? ?]
          end).

Ltac prefix_true :=
  repeat (rewrite prefix_cons;
          destruct (ascii_dec _ _) as [_|?]; [|congruence]);
  apply prefix_nil_l.

(** No match of [".weight"] straddles a boundary that is followed by a
    dot. *)
Lemma inside_weight (p r : string) : inside ".weight" p (String "." r).
Proof.
  intros u q -> Hq Hpre. destruct q as [|c q]; [congruence|].
  scan Hpre; prefix_true.
Qed.

(** A match of [".conv."] straddles such a boundary only when [".conv"]
    precedes it. *)
Lemma inside_conv (p r : string) :
  endswith p ".conv" = false -> inside ".conv." p (String "." r).
Proof.
  intros Hend u q -> Hq Hpre. destruct q as [|c q]; [congruence|].
  scan Hpre; try prefix_true.
  rewrite endswith_app in Hend. discriminate.
Qed.

Lemma new_k_rank3 (k : string) (v : tensor Q) :
  rank v = 3%nat ->
  new_k k v = replace ".weight" ".conv.weight" (replace ".conv." ".mconv." k).
Proof. unfold new_k. now intros ->. Qed.

Lemma new_k_other (k : string) (v : tensor Q) :
  rank v <> 3%nat -> new_k k v = replace ".conv." ".mconv." k.
Proof.
  unfold new_k. intros Hr. now apply Nat.eqb_neq in Hr as ->.
Qed.

Lemma conv_weight_rank3 (p s : string) (v : tensor Q) :
  endswith p ".conv" = false -> rank v = 3%nat ->
  new_k (p +:+ ".conv.weight" +:+ s) v =
  replace ".weight" ".conv.weight" (replace ".conv." ".mconv." p)
  +:+ ".mconv.conv.weight"
  +:+ replace ".weight" ".conv.weight" (replace ".conv." ".mconv." s).
Proof.
  intros Hend Hr. rewrite new_k_rank3 by assumption.
  change (p +:+ ".conv.weight" +:+ s) with (p +:+ ".conv." +:+ ("weight" +:+ s)).
  rewrite replace_occurrence by (try apply inside_conv; easy).
  change (replace ".conv." ".mconv." ("weight" +:+ s))
    with ("weight" +:+ replace ".conv." ".mconv." s).
  set (A := replace ".conv." ".mconv." p).
  set (S1 := replace ".conv." ".mconv." s).
  change (A +:+ ".mconv." +:+ "weight" +:+ S1)
    with (A +:+ ".mconv" +:+ ".weight" +:+ S1).
  rewrite <- (str_app_assoc A ".mconv").
  rewrite replace_occurrence by (try apply inside_weight; easy).
  rewrite replace_app by (try apply inside_weight; easy).
  change (replace ".weight" ".conv.weight" ".mconv") with ".mconv".
  rewrite str_app_assoc. reflexivity.
Qed.

(** C1 as stated does not hold: the key ["x.conv.conv.weight"] contains
    [".conv.weight"] and its tensor has rank 3, yet the scan of the first
    replacement steps over the second [".conv."] (it shares its leading dot
    with the first), and the remapped key ["x.mconv.conv.conv.weight"] does
    not contain [".mconv.conv.weight"]. *)
Lemma C1_overlapping_segments :
  contains ".conv.weight" "x.conv.conv.weight" = true /\
  rank (Tensor [1; 1; 1]%nat [1%Q]) = 3%nat /\
  new_k "x.conv.conv.weight" (Tensor [1; 1; 1]%nat [1%Q]) = "x.mconv.conv.conv.weight" /\
  contains ".mconv.conv.weight"
    (new_k "x.conv.conv.weight" (Tensor [1; 1; 1]%nat [1%Q])) = false.
Proof. repeat split; reflexivity. Qed.

(** C1 (amended).  For an entry with a rank-3 tensor whose key has an
    occurrence of [".conv.weight"] that is not directly preceded by
    [".conv"], the remapped key contains [".mconv.conv.weight"].  For an
    entry whose tensor is not of rank 3 and whose key contains [".conv."],
    the remapped key contains [".mconv."] and is the key after the first
    replacement alone: no [".conv."] is inserted before [".weight"]. *)
Theorem C1_legacy_key_remapping (v : tensor Q) :
  (rank v = 3%nat ->
   forall p s, endswith p ".conv" = false ->
     contains ".mconv.conv.weight" (new_k (p +:+ ".conv.weight" +:+ s) v) = true)
  /\
  (rank v <> 3%nat ->
   forall k, contains ".conv." k = true ->
     contains ".mconv." (new_k k v) = true /\
     new_k k v = replace ".conv." ".mconv." k).
Proof.
  split.
  - intros Hr p s Hend. rewrite conv_weight_rank3 by assumption.
    apply contains_intro.
  - intros Hr k Hk. rewrite new_k_other by assumption. split; [|reflexivity].
    now apply replace_present.
Qed.

Lemma C1_legacy_key_remapping_witness :
  contains ".mconv.conv.weight"
    (new_k ("encoder.0" +:+ ".conv.weight" +:+ "") (Tensor [2; 2; 1]%nat [1; 2; 3; 4]%Q)) = true
  /\
  (contains ".mconv." (new_k "encoder.0.conv.bias" (Tensor [2]%nat [1; 2]%Q)) = true /\
   new_k "encoder.0.conv.bias" (Tensor [2]%nat [1; 2]%Q)
   = replace ".conv." ".mconv." "encoder.0.conv.bias").
Proof.
  split.
  - apply (proj1 (C1_legacy_key_remapping (Tensor [2; 2; 1]%nat [1; 2; 3; 4]%Q)));
      reflexivity.
  - apply (proj2 (C1_legacy_key_remapping (Tensor [2]%nat [1; 2]%Q)));
      [vm_compute; lia | reflexivity].
Defined.

(** C9 as stated does not hold for every occurrence: in ["a.conv.conv.b"]
    the occurrence of [".conv."] that follows ["a.conv"] is left as it is,
    and the remapped key still contains [".conv."]. *)
Lemma C9_overlapping_occurrence_kept :
  "a.conv.conv.b" = "a.conv" +:+ ".conv." +:+ "b" /\
  new_k "a.conv.conv.b" (Tensor [1]%nat [1%Q]) = "a.mconv.conv.b" /\
  new_k "a.conv.conv.b" (Tensor [1]%nat [1%Q])
  <> new_k "a.conv" (Tensor [1]%nat [1%Q]) +:+ ".mconv."
     +:+ new_k "b" (Tensor [1]%nat [1%Q]) /\
  contains ".conv." (new_k "a.conv.conv.b" (Tensor [1]%nat [1%Q])) = true.
Proof. repeat split; try reflexivity. vm_compute. discriminate. Qed.

(** C9 (amended).  For an entry with a rank-3 tensor the second replacement
    is applied whatever the key: the remapped key is the key after both
    replacements, and in a key without [".conv."] every [".weight"] becomes
    [".conv.weight"].  The first replacement rewrites every occurrence of
    [".conv."] that is not directly preceded by [".conv"] (one that shares
    its leading dot with the occurrence before it can be stepped over), not
    only the first one: what precedes and what follows such an occurrence is
    rewritten independently. *)
Theorem C9_replacements_applied (v : tensor Q) :
  (rank v = 3%nat ->
   forall k,
     new_k k v = replace ".weight" ".conv.weight" (replace ".conv." ".mconv." k) /\
     (contains ".conv." k = false ->
      forall p s, k = p +:+ ".weight" +:+ s ->
        new_k k v = replace ".weight" ".conv.weight" p +:+ ".conv.weight"
                    +:+ replace ".weight" ".conv.weight" s))
  /\
  (forall p s, endswith p ".conv" = false ->
     replace ".conv." ".mconv." (p +:+ ".conv." +:+ s)
     = replace ".conv." ".mconv." p +:+ ".mconv." +:+ replace ".conv." ".mconv." s /\
     (rank v <> 3%nat ->
      new_k (p +:+ ".conv." +:+ s) v = new_k p v +:+ ".mconv." +:+ new_k s v)).
Proof.
  split.
  - intros Hr k. split; [now apply new_k_rank3|].
    intros Hk p s ->. rewrite new_k_rank3 by assumption.
    rewrite (replace_absent ".conv.") by easy.
    apply replace_occurrence; [easy | apply inside_weight].
  - intros p s Hend.
    assert (Hocc : replace ".conv." ".mconv." (p +:+ ".conv." +:+ s)
                   = replace ".conv." ".mconv." p +:+ ".mconv."
                     +:+ replace ".conv." ".mconv." s)
      by (apply replace_occurrence; [easy | now apply inside_conv]).
    split; [exact Hocc|].
    intros Hr. now rewrite !new_k_other by assumption.
Qed.

Lemma C9_replacements_applied_witness :
  new_k "fc.weight" (Tensor [1; 1; 1]%nat [1%Q])
  = replace ".weight" ".conv.weight" "fc" +:+ ".conv.weight"
    +:+ replace ".weight" ".conv.weight" ""
  /\
  new_k ("a" +:+ ".conv." +:+ "b.conv.c") (Tensor [1]%nat [1%Q])
  = new_k "a" (Tensor [1]%nat [1%Q]) +:+ ".mconv."
    +:+ new_k "b.conv.c" (Tensor [1]%nat [1%Q]).
Proof.
  split.
  - apply (proj1 (C9_replacements_applied (Tensor [1; 1; 1]%nat [1%Q])) eq_refl
             "fc.weight"); reflexivity.
  - apply (proj2 (C9_replacements_applied (Tensor [1]%nat [1%Q])) "a" "b.conv.c" eq_refl).
    vm_compute. lia.
Defined.

(** ** The conversion of a whole checkpoint *)

Lemma convert_snoc (ckpt : list (string * tensor Q)) (k : string) (v : tensor Q) :
  convert (ckpt ++ [(k, v)]) = <[new_k k v := v]> (convert ckpt).
Proof. unfold convert. now rewrite foldl_snoc. Qed.

Lemma convert_lookup_last (ckpt : list (string * tensor Q)) :
  forall i k v,
    ckpt !! i = Some (k, v) ->
    (forall j k' v', (i < j)%nat -> ckpt !! j = Some (k', v') ->
       new_k k' v' <> new_k k v) ->
    convert ckpt !! new_k k v = Some v.
Proof.
  induction ckpt as [|[k0 v0] l IH] using rev_ind; intros i k v Hi Hlater.
  - discriminate.
  - rewrite convert_snoc.
    destruct (decide (i < length l)%nat) as [Hlt|Hge].
    + rewrite lookup_app_l in Hi by assumption.
      rewrite lookup_insert_ne.
      * apply (IH i); [assumption|].
        intros j k' v' Hj Hl. apply (Hlater j); [assumption|].
        rewrite lookup_app_l; [assumption|]. now apply lookup_lt_Some in Hl.
      * apply (Hlater (length l)); [assumption|].
        now rewrite list_lookup_middle.
    + assert (i = length l) as ->.
      { apply lookup_lt_Some in Hi. rewrite length_app in Hi. simpl in Hi. lia. }
      rewrite list_lookup_middle in Hi by reflexivity.
      injection Hi as -> ->. apply lookup_insert_eq.
Qed.

Lemma convert_values (ckpt : list (string * tensor Q)) :
  forall k' v, convert ckpt !! k' = Some v ->
    exists k, (k, v) ∈ ckpt /\ k' = new_k k v.
Proof.
  induction ckpt as [|[k0 v0] l IH] using rev_ind; intros k' v.
  - unfold convert. simpl. now rewrite lookup_empty.
  - rewrite convert_snoc, lookup_insert. case_decide as Hk.
    + intros [= <-]. exists k0. split; [set_solver | now subst].
    + intros (k & Hin & ->)%IH. exists k. split; [set_solver | reflexivity].
Qed.

(** C10 as stated does not hold when two keys are renamed to the same key:
    the entry written last wins, and the renamed key of the first entry
    maps to the tensor of the second. *)
Lemma C10_colliding_keys :
  let v1 := Tensor [1]%nat [1%Q] in
  let v2 := Tensor [1]%nat [2%Q] in
  let ckpt := [("a.conv.b", v1); ("a.mconv.b", v2)] in
  ckpt !! 0%nat = Some ("a.conv.b", v1) /\
  convert ckpt !! new_k "a.conv.b" v1 = Some v2 /\
  convert ckpt !! new_k "a.conv.b" v1 <> Some v1.
Proof. repeat split. vm_compute. discriminate. Qed.

(** C10 (amended).  The conversion never changes a tensor.  For every entry
    ([k], [v]) of the checkpoint such that no later entry is renamed to the
    same key, the converted checkpoint maps the renamed key to [v] itself;
    and every tensor of the converted checkpoint is the tensor of an entry
    of the original, found under the renamed key of that entry. *)
Theorem C10_only_keys_change (ckpt : list (string * tensor Q)) :
  (forall i k v,
     ckpt !! i = Some (k, v) ->
     (forall j k' v', (i < j)%nat -> ckpt !! j = Some (k', v') ->
        new_k k' v' <> new_k k v) ->
     convert ckpt !! new_k k v = Some v)
  /\
  (forall k' v, convert ckpt !! k' = Some v ->
     exists k, (k, v) ∈ ckpt /\ k' = new_k k v).
Proof. split; [apply convert_lookup_last | apply convert_values]. Qed.

Lemma C10_only_keys_change_witness :
  let v1 := Tensor [2; 1; 1]%nat [1; 2]%Q in
  let v2 := Tensor [2]%nat [3; 4]%Q in
  let ckpt := [("enc.conv.weight", v1); ("enc.conv.bias", v2)] in
  convert ckpt !! new_k "enc.conv.weight" v1 = Some v1 /\
  (exists k, (k, v2) ∈ ckpt /\ "enc.mconv.bias" = new_k k v2).
Proof.
  intros v1 v2 ckpt.
  pose proof (C10_only_keys_change ckpt) as [Hkept Hvalues]. split.
  - apply (Hkept 0%nat); [reflexivity|].
    intros [|[|j]] k' v' Hj Hl; [lia | | discriminate Hl].
    injection Hl as <- <-. vm_compute. discriminate.
  - apply Hvalues. vm_compute. reflexivity.
Defined.

(** ** Keys that change and keys that do not *)

Lemma contains_nil_r (sub : string) : sub <> "" -> contains sub "" = false.
Proof.
  intros Hne. change (String.prefix sub "" || false = false).
  now rewrite prefix_nil_r.
Qed.

(** A replacement by a pattern that is not shorter never shortens the text,
    and lengthens it when the new pattern is longer and the old one
    occurs. *)
Lemma replace_go_length (old new : string) :
  old <> "" -> (String.length old <= String.length new)%nat ->
  forall n s, (String.length s <= n)%nat ->
    (String.length s <= String.length (replace_go old new 0 s))%nat /\
    ((String.length old < String.length new)%nat -> contains old s = true ->
     (String.length s < String.length (replace_go old new 0 s))%nat).
Proof.
  intros Hne Hlen. induction n as [|n IH]; intros [|c t] Hs; simpl in Hs; try lia.
  - split; [simpl; lia|]. intros _. now rewrite contains_nil_r.
  - split; [simpl; lia|]. intros _. now rewrite contains_nil_r.
  - rewrite replace_go_cons, contains_cons.
    destruct (String.prefix old (String c t)) eqn:Hpre.
    + destruct (prefix_inv _ _ Hpre) as [r Heq].
      destruct old as [|a old']; [congruence|].
      rewrite str_app_cons in Heq. injection Heq as -> ->.
      replace (String.length (String a old') - 1)%nat with (String.length old')
        by (simpl; lia).
      rewrite replace_go_skip, !str_length_app.
      destruct (IH r) as [Hr _]; [rewrite str_length_app in Hs; lia|].
      simpl String.length in *. rewrite str_length_app. split; intros; lia.
    + destruct (IH t) as [Ht Hstrict]; [lia|]. simpl.
      split; [lia|]. intros Hlt Hc. specialize (Hstrict Hlt Hc). lia.
Qed.

Lemma replace_length (old new s : string) :
  old <> "" -> (String.length old <= String.length new)%nat ->
  (String.length s <= String.length (replace old new s))%nat /\
  ((String.length old < String.length new)%nat -> contains old s = true ->
   (String.length s < String.length (replace old new s))%nat).
Proof.
  intros Hne Hlen. rewrite replace_nonempty by assumption.
  now apply (replace_go_length old new Hne Hlen (String.length s)).
Qed.

(** X10.  The renaming of the legacy loop never shortens a key, and it
    leaves a key as it is exactly when the key contains no [".conv."] and,
    for a tensor of rank 3, no [".weight"]; every other key is changed. *)
Theorem new_k_unchanged (k : string) (v : tensor Q) :
  (String.length k <= String.length (new_k k v))%nat /\
  (new_k k v = k <->
   contains ".conv." k = false /\ (rank v = 3%nat -> contains ".weight" k = false)).
Proof.
  destruct (replace_length ".conv." ".mconv." k) as [H1 H1s]; [easy | simpl; lia |].
  destruct (replace_length ".weight" ".conv.weight" (replace ".conv." ".mconv." k))
    as [H2 H2s]; [easy | simpl; lia |].
  assert (Hlen : (String.length k <= String.length (new_k k v))%nat).
  { unfold new_k. destruct (rank v =? 3)%nat; lia. }
  split; [exact Hlen|]. split.
  - intros Heq.
    assert (Hconv : contains ".conv." k = false).
    { destruct (contains ".conv." k) eqn:Hc; [|reflexivity].
      specialize (H1s ltac:(simpl; lia) eq_refl).
      unfold new_k in Heq. apply (f_equal String.length) in Heq.
      destruct (rank v =? 3)%nat; lia. }
    split; [exact Hconv|]. intros Hr.
    rewrite new_k_rank3, (replace_absent ".conv.") in Heq by easy.
    rewrite (replace_absent ".conv.") in H2s by easy.
    destruct (contains ".weight" k) eqn:Hw; [|reflexivity].
    specialize (H2s ltac:(simpl; lia) eq_refl).
    apply (f_equal String.length) in Heq. lia.
  - intros [Hconv Hweight]. unfold new_k.
    rewrite (replace_absent ".conv.") by easy.
    destruct (rank v =? 3)%nat eqn:Hr; [|reflexivity].
    apply Nat.eqb_eq in Hr. now rewrite replace_absent by auto.
Qed.

Lemma new_k_unchanged_witness :
  new_k "encoder.0.bn.weight" (Tensor [4]%nat [1; 1; 1; 1]%Q) = "encoder.0.bn.weight".
Proof.
  apply (proj2 (proj2 (new_k_unchanged "encoder.0.bn.weight"
                         (Tensor [4]%nat [1; 1; 1; 1]%Q)))).
  split; [reflexivity|]. vm_compute. discriminate.
Defined.

(** ** The keys of the converted checkpoint *)

Lemma convert_dom (ckpt : list (string * tensor Q)) :
  dom (convert ckpt) = list_to_set (renamed ckpt).
Proof.
  induction ckpt as [|[k v] l IH] using rev_ind.
  - unfold convert. simpl. apply dom_empty_L.
  - rewrite convert_snoc, dom_insert_L, IH. unfold renamed.
    rewrite map_app, list_to_set_app_L. simpl.
    rewrite union_empty_r_L. apply union_comm_L.
Qed.

Lemma convert_size (ckpt : list (string * tensor Q)) :
  (size (convert ckpt) <= length ckpt)%nat.
Proof.
  induction ckpt as [|[k v] l IH] using rev_ind.
  - unfold convert. simpl. now rewrite map_size_empty.
  - rewrite convert_snoc, map_size_insert, length_app. simpl.
    destruct (convert l !! new_k k v); simpl; lia.
Qed.

(** X11.  The converted checkpoint has exactly the renamed keys, so never
    more entries than the original; when the renamed keys are pairwise
    distinct it has as many entries as the original and every entry is found,
    with its own tensor, under its renamed key: no parameter is lost. *)
Theorem convert_keeps_entries (ckpt : list (string * tensor Q)) :
  dom (convert ckpt) = list_to_set (renamed ckpt) /\
  (size (convert ckpt) <= length ckpt)%nat /\
  (NoDup (renamed ckpt) ->
   size (convert ckpt) = length ckpt /\
   forall k v, (k, v) ∈ ckpt -> convert ckpt !! new_k k v = Some v).
Proof.
  split; [apply convert_dom|].
  assert (Hsize : size (convert ckpt) = size (list_to_set (renamed ckpt) : gset string))
    by (rewrite <- convert_dom; symmetry; apply size_dom).
  assert (Hlen : length (renamed ckpt) = length ckpt) by apply length_map.
  split; [apply convert_size|].
  intros Hnd. split.
  - rewrite Hsize, <- Hlen. now apply size_list_to_set.
  - intros k v [i Hi]%list_elem_of_lookup.
    apply (convert_lookup_last ckpt i); [exact Hi|].
    intros j k' v' Hij Hj Heq.
    assert (Hri : renamed ckpt !! i = Some (new_k k v))
      by (unfold renamed; now rewrite list_lookup_fmap, Hi).
    assert (Hrj : renamed ckpt !! j = Some (new_k k v))
      by (unfold renamed; rewrite list_lookup_fmap, Hj; simpl; now rewrite Heq).
    pose proof (NoDup_lookup _ _ _ _ Hnd Hri Hrj). lia.
Qed.

Lemma convert_keeps_entries_witness :
  let v1 := Tensor [2; 1; 1]%nat [1; 2]%Q in
  let v2 := Tensor [2]%nat [3; 4]%Q in
  let ckpt := [("enc.conv.weight", v1); ("enc.conv.bias", v2)] in
  size (convert ckpt) = 2%nat /\
  convert ckpt !! "enc.mconv.bias" = Some v2.
Proof.
  intros v1 v2 ckpt.
  destruct (convert_keeps_entries ckpt) as (_ & _ & Hdistinct).
  destruct Hdistinct as [Hsize Hfound].
  - change (NoDup ["enc.mconv.conv.weight"; "enc.mconv.bias"]).
    apply NoDup_cons. split; [|apply NoDup_singleton].
    intros [=]%list_elem_of_singleton.
  - split; [exact Hsize|]. apply (Hfound "enc.conv.bias" v2).
    apply list_elem_of_further, list_elem_of_here.
Defined.

End Conversion.

(* ===================================================================== *)
(** * The set of paths is a file system                                   *)
(* ===================================================================== *)

Section PathSet.

Import export_jasper_to_onnx.

Lemma set_makedirs_exists (s : gset string) (d : string) (s' : gset string) :
  set_makedirs s d = Ok s' -> set_exists s' d = true.
Proof.
  unfold set_makedirs, set_exists. case_bool_decide; [discriminate|].
  intros [= <-]. apply bool_decide_eq_true. set_solver.
Qed.

Lemma set_makedirs_keeps (s : gset string) (d : string) (s' : gset string) (p : string) :
  set_makedirs s d = Ok s' -> set_exists s p = true -> set_exists s' p = true.
Proof.
  unfold set_makedirs, set_exists. case_bool_decide; [discriminate|].
  intros [= <-] Hp%bool_decide_eq_true. apply bool_decide_eq_true. set_solver.
Qed.

Lemma set_written_keeps (s : gset string) (f p : string) :
  set_exists s p = true -> set_exists (set_written s f) p = true.
Proof.
  unfold set_written, set_exists.
  intros Hp%bool_decide_eq_true. apply bool_decide_eq_true. set_solver.
Qed.

Global Instance path_set : FileSystem (gset string) := {|
  os_path_exists := set_exists;
  os_makedirs := set_makedirs;
  written := set_written;
  makedirs_exists := set_makedirs_exists;
  makedirs_keeps := set_makedirs_keeps;
  written_keeps := set_written_keeps;
|}.

Lemma kinds_makedirs_exists (t : gmap string kind) (d : string) (t' : gmap string kind) :
  kinds_makedirs t d = Ok t' -> kinds_exists t' d = true.
Proof.
  unfold kinds_makedirs. destruct (kinds_exists t d); [discriminate|].
  intros [= <-]. unfold kinds_exists. now rewrite lookup_insert_eq.
Qed.

Lemma kinds_insert_keeps (t : gmap string kind) (q p : string) (k : kind) :
  kinds_exists t p = true -> kinds_exists (<[q := k]> t) p = true.
Proof.
  unfold kinds_exists. destruct (decide (q = p)) as [->|Hne].
  - now rewrite lookup_insert_eq.
  - now rewrite lookup_insert_ne.
Qed.

Lemma kinds_makedirs_keeps (t : gmap string kind) (d : string) (t' : gmap string kind)
    (p : string) :
  kinds_makedirs t d = Ok t' -> kinds_exists t p = true -> kinds_exists t' p = true.
Proof.
  unfold kinds_makedirs. destruct (kinds_exists t d); [discriminate|].
  intros [= <-]. apply kinds_insert_keeps.
Qed.

Lemma kinds_written_keeps (t : gmap string kind) (f p : string) :
  kinds_exists t p = true -> kinds_exists (kinds_written t f) p = true.
Proof. apply kinds_insert_keeps. Qed.

Global Instance path_kinds : FileSystem (gmap string kind) := {|
  os_path_exists := kinds_exists;
  os_makedirs := kinds_makedirs;
  written := kinds_written;
  makedirs_exists := kinds_makedirs_exists;
  makedirs_keeps := kinds_makedirs_keeps;
  written_keeps := kinds_written_keeps;
|}.

End PathSet.

(* ===================================================================== *)
(** * The runs of [main]                                                  *)
(* ===================================================================== *)


Section MainFacts.

Import PyStr Torch export_jasper_to_onnx.

Context {fs : Type} `{FileSystem fs}.

#[local] Arguments getitem : simpl never.
#[local] Arguments py_in : simpl never.
#[local] Arguments py_len : simpl never.
#[local] Arguments unpack : simpl never.
#[local] Arguments zeros_on_cuda : simpl never.
#[local] Arguments os_path_split : simpl never.
#[local] Arguments String.eqb : simpl never.
#[local] Arguments convert : simpl never.

Lemma bind_run {A B} (m : M A) (f : A -> M B) (s : fs) :
  (m ≫= f) s =
  match m s with
  | (Ok a, s1, tr1) => (outcome (f a s1), final (f a s1), tr1 ++ trace (f a s1))
  | (Raise e, s1, tr1) => (Raise e, s1, tr1)
  end.
Proof.
  unfold mbind, M_bind. destruct (m s) as [[[a|e] s1] tr1]; [|reflexivity].
  now destruct (f a s1) as [[? ?] ?].
Qed.

(** Unfolds a block of [main] into the case analysis on the answers of the
    calls it makes. *)
Ltac run_block :=
  unfold outcome, final, trace, mbind, M_bind, result_bind, mret, M_ret,
    result_ret, lift, emit, call, raise;
  simpl;
  repeat (match goal with
          | |- context [match ?x with _ => _ end] =>
              lazymatch x with
              | context [match _ with _ => _ end] => fail
              | _ => destruct x eqn:?
              end
          end; simpl).

Ltac events := repeat constructor.

Lemma before_decoder_run (E : env) (config_file : string) (s : fs) :
  let run := before_decoder E config_file s in
  final run = s /\
  Forall (fun ev => encoder_setup_event ev = true) (trace run) /\
  forall jmd dp nd, outcome run = Ok (jmd, dp, nd) ->
    yaml_load E config_file = Ok jmd /\
    (init_params ← getitem jmd "init_params";
     decoder ← getitem init_params "decoder_params";
     getitem decoder "init_params") = Ok dp /\
    getitem dp "feat_in" = Ok nd /\
    exists kwargs, Construct Encoder kwargs ∈ trace run.
Proof.
  unfold before_decoder, loading_config_file, determining_model_shape,
    initializing_encoder.
  run_block; (split; [reflexivity|]); (split; [events|]);
    intros jmd dp nd; try discriminate.
  intros [= <- <- <-]. unfold mbind, result_bind.
  repeat match goal with Heq : ?x = Ok _ |- context [?x] => rewrite Heq end.
  repeat split. eexists. repeat constructor.
Qed.

Lemma initializing_decoder_run (E : env) (jmd dp nd : yaml) (decoder_type : string)
    (s : fs) :
  let run := initializing_decoder E jmd dp nd decoder_type s in
  final run = s /\
  Forall (fun ev => setup_event ev = true) (trace run) /\
  (forall m, outcome run = Ok m -> is_decoder m = true) /\
  (decoder_type <> "ctc" -> decoder_type <> "classification" ->
   outcome run = Raise (ValueError "`decoder_type` must be one of ['ctc', 'classification']")
   /\ trace run = []) /\
  (decoder_type = "classification" -> py_in "labels" jmd = Ok false ->
   outcome run = Raise (ValueError
     "List of class labels must be defined in model config file with key 'labels'")
   /\ trace run = []).
Proof.
  unfold initializing_decoder.
  destruct (String.eqb decoder_type "ctc") eqn:Hctc;
    [|destruct (String.eqb decoder_type "classification") eqn:Hcls].
  - apply String.eqb_eq in Hctc as ->.
    run_block; (split; [reflexivity|]); (split; [events|]);
      (split; [intros m; try discriminate; now intros [= <-]|]);
      split; intros; congruence.
  - apply String.eqb_eq in Hcls as ->.
    run_block; (split; [reflexivity|]); (split; [events|]);
      (split; [intros m; try discriminate; now intros [= <-]|]);
      (split; [intros; congruence|]); intros _ Hlab;
      try discriminate; try (injection Hlab as [=]); try discriminate.
    now split.
  - apply String.eqb_neq in Hctc, Hcls.
    run_block. repeat split; try constructor; try discriminate; congruence.
Qed.

Lemma loading_checkpoints_run (E : env) (pre_v09_model : bool)
    (nn_encoder nn_decoder : string) (jasper_decoder : module) (s : fs) :
  let run := loading_checkpoints E pre_v09_model nn_encoder nn_decoder jasper_decoder s in
  final run = s /\ Forall (fun ev => loading_event ev = true) (trace run).
Proof.
  unfold loading_checkpoints. destruct pre_v09_model; run_block; split;
    try reflexivity; events.
Qed.

Lemma create_export_directory_run (nn_onnx : string) (s : fs) :
  let run := create_export_directory nn_onnx s in
  let base := (os_path_split nn_onnx).1 in
  Forall (fun ev => loading_event ev = true) (trace run) /\
  (forall p, os_path_exists s p = true -> os_path_exists (final run) p = true) /\
  (outcome run = Ok tt -> base = "" \/ os_path_exists (final run) base = true) /\
  (outcome run = Ok tt -> base <> "" -> os_path_exists s base = false ->
   trace run = [Makedirs base]).
Proof.
  unfold create_export_directory, path_exists, makedirs.
  destruct (os_path_split nn_onnx) as [base export_fn]. simpl.
  destruct (String.eqb base "") eqn:Hbase.
  - apply String.eqb_eq in Hbase as ->. run_block.
    split; [events|]. split; [auto|]. split; [auto|congruence].
  - apply String.eqb_neq in Hbase. run_block.
    + split; [events|]. split; [auto|]. split; [auto|congruence].
    + split; [events|]. split; [|split].
      * intros p. eapply makedirs_keeps; eassumption.
      * intros _. right. eapply makedirs_exists; eassumption.
      * reflexivity.
    + split; [events|]. split; [auto|]. split; discriminate.
Qed.

Lemma zeros_on_cuda_inv (E : env) (b t : Z) (feat : yaml) (dummy : tensor Q) :
  zeros_on_cuda E b [feat; YInt t] = Ok dummy ->
  exists f, as_int feat = Ok f /\ zeros [b; f; t] = Ok dummy.
Proof.
  unfold zeros_on_cuda, mbind, result_bind.
  destruct (as_int feat) as [f|]; [|discriminate]. simpl.
  destruct (zeros [b; f; t]) as [d|] eqn:Hz; [|discriminate].
  destruct (cuda E); [|discriminate].
  intros [= <-]. now exists f.
Qed.

Lemma zeros_inv (dims : list Z) (t : tensor Q) :
  zeros dims = Ok t ->
  Forall (fun d => (0 <= d)%Z) dims /\
  shape t = map Z.to_nat dims /\
  well_formed t /\
  Forall (fun x => x = 0%Q) (data t).
Proof.
  unfold zeros. destruct (forallb (Z.leb 0) dims) eqn:Hdims; [|discriminate].
  intros [= <-]. repeat split.
  - apply Forall_forall. intros d Hd.
    rewrite forallb_forall in Hdims. apply Z.leb_le, Hdims.
    now apply list_elem_of_In.
  - unfold well_formed. simpl. apply repeat_length.
  - simpl. apply Forall_forall. intros x Hx.
    apply list_elem_of_In in Hx. now apply repeat_spec in Hx.
Qed.

(** The sizes of a tensor that [torch.zeros] returned. *)
Lemma zeros_shape (dims : list Z) (t : tensor Q) :
  zeros dims = Ok t -> map Z.of_nat (shape t) = dims.
Proof.
  intros (Hdims & -> & _)%zeros_inv.
  induction Hdims as [|d dims Hd _ IH]; [reflexivity|].
  simpl. rewrite IH. f_equal. lia.
Qed.

Lemma exporting_run (E : env) (jasper_decoder : module)
    (nn_onnx_encoder nn_onnx_decoder : string) (batch_size time_steps : Z)
    (nd : yaml) (s : fs) :
  let run := exporting E jasper_decoder nn_onnx_encoder nn_onnx_decoder
               batch_size time_steps nd s in
  (forall m path dummy s',
     DeploymentExport m path dummy s' ∈ trace run ->
     (m = Encoder /\ path = nn_onnx_encoder /\ s' = s /\
      zeros [batch_size; num_encoder_input_features; time_steps] = Ok dummy) \/
     (m = jasper_decoder /\ path = nn_onnx_decoder /\
      s' = written s nn_onnx_encoder /\
      exists f, as_int nd = Ok f /\
                zeros [batch_size; f; (time_steps / 2)%Z] = Ok dummy)) /\
  (outcome run = Ok tt ->
   exists dummy_e dummy_d,
     List.filter is_export (trace run) =
     [DeploymentExport Encoder nn_onnx_encoder dummy_e s;
      DeploymentExport jasper_decoder nn_onnx_decoder dummy_d
        (written s nn_onnx_encoder)]).
Proof.
  unfold exporting, export_module, nf_deployment_export.
  run_block; (split; [|try discriminate; intros _; eauto]);
    intros m path dummy s' Hin;
    repeat match goal with
    | Hz : zeros_on_cuda _ _ _ = Ok _ |- _ =>
        apply zeros_on_cuda_inv in Hz as (? & ? & ?)
    end;
    repeat (apply elem_of_cons in Hin as [Hin|Hin]; [try discriminate Hin|]);
    try (apply elem_of_nil in Hin as []);
    try (injection Hin as -> -> -> ->);
    try match goal with Hy : as_int (YInt _) = Ok _ |- _ => injection Hy as <- end;
    eauto 10.
Qed.

Lemma encoder_setup_quiet (ev : event fs) :
  encoder_setup_event ev = true ->
  is_export ev = false /\ reads_checkpoint ev = false /\ constructs_decoder ev = false.
Proof. destruct ev as [| | | |[] ?| | | | |]; simpl; intros; try discriminate; auto. Qed.

Lemma setup_quiet (ev : event fs) :
  setup_event ev = true -> is_export ev = false /\ reads_checkpoint ev = false.
Proof. destruct ev; simpl; intros; try discriminate; auto. Qed.

Lemma loading_quiet (ev : event fs) :
  loading_event ev = true -> is_export ev = false.
Proof. destruct ev; simpl; intros; try discriminate; auto. Qed.

#[local] Arguments before_decoder : simpl never.
#[local] Arguments initializing_decoder : simpl never.
#[local] Arguments loading_checkpoints : simpl never.
#[local] Arguments create_export_directory : simpl never.
#[local] Arguments exporting : simpl never.

(** Splits the run of a block off the run of [main]. *)
Ltac next_block Hrun :=
  rewrite bind_run;
  match goal with
  | |- context [match ?m ?s with _ => _ end] =>
      let r := fresh "r" in
      let s' := fresh "s" in
      let tr := fresh "tr" in
      destruct (m s) as [[r s'] tr] eqn:Hrun
  end;
  unfold outcome, final, trace in *; simpl in *.

(** A run either fails before the exports, without an export, or reaches
    them with the model shape of the configuration, after both directory
    steps. *)
Lemma main_reaches_export (E : env)
    (config_file nn_encoder nn_decoder nn_onnx_encoder nn_onnx_decoder : string)
    (pre_v09_model : bool) (batch_size time_steps : Z) (decoder_type : string) (s : fs) :
  let run := main E config_file nn_encoder nn_decoder nn_onnx_encoder nn_onnx_decoder
               pre_v09_model batch_size time_steps decoder_type s in
  (Forall (fun ev => is_export ev = false) (trace run) /\ is_ok (outcome run) = false)
  \/
  (exists jmd dp feat dec pre mk1 mk2 s4 s5,
     yaml_load E config_file = Ok jmd /\
     (init_params ← getitem jmd "init_params";
      decoder ← getitem init_params "decoder_params";
      getitem decoder "init_params") = Ok dp /\
     getitem dp "feat_in" = Ok feat /\
     is_decoder dec = true /\
     Forall (fun ev => is_export ev = false) pre /\
     create_export_directory nn_onnx_encoder s = (Ok tt, s4, mk1) /\
     create_export_directory nn_onnx_decoder s4 = (Ok tt, s5, mk2) /\
     let ex := exporting E dec nn_onnx_encoder nn_onnx_decoder batch_size time_steps
                 feat s5 in
     trace run = pre ++ mk1 ++ mk2 ++ trace ex /\ outcome run = outcome ex).
Proof.
  intros run. subst run. unfold main.
  pose proof (before_decoder_run E config_file s) as (Hs1 & Hq1 & Hok1).
  next_block Hrun1. subst.
  destruct r as [[[jmd dp] feat]|e];
    [|left; split; [|reflexivity];
      eapply Forall_impl; [exact Hq1 | intros ev Hev; now apply encoder_setup_quiet]].
  destruct (Hok1 _ _ _ eq_refl) as (Hy & Hdp & Hfeat & _).
  pose proof (initializing_decoder_run E jmd dp feat decoder_type s) as (Hs2 & Hq2 & Hdec & _).
  next_block Hrun2. subst.
  assert (Hpre12 : Forall (fun ev : event fs => is_export ev = false) (tr ++ tr0)).
  { apply Forall_app. split; (eapply Forall_impl; [eassumption|]); intros ev Hev.
    - now apply encoder_setup_quiet. - now apply setup_quiet. }
  destruct r as [dec|e]; [|left; rewrite app_nil_r || idtac; now split].
  specialize (Hdec _ eq_refl).
  pose proof (loading_checkpoints_run E pre_v09_model nn_encoder nn_decoder dec s)
    as (Hs3 & Hq3).
  next_block Hrun3. subst.
  assert (Hpre : Forall (fun ev : event fs => is_export ev = false) (tr ++ tr0 ++ tr1)).
  { rewrite app_assoc. apply Forall_app. split; [assumption|].
    eapply Forall_impl; [eassumption|]. intros ev Hev. now apply loading_quiet. }
  destruct r as [[]|e]; [|left; now split].
  pose proof (create_export_directory_run nn_onnx_encoder s) as (Hq4 & _).
  next_block Hrun4.
  assert (Hmk1 : Forall (fun ev : event fs => is_export ev = false) tr2).
  { eapply Forall_impl; [eassumption|]. intros ev Hev. now apply loading_quiet. }
  destruct r as [[]|e].
  2:{ left. split; [|reflexivity]. rewrite !app_assoc. apply Forall_app. split; [|assumption].
      now rewrite <- app_assoc. }
  pose proof (create_export_directory_run nn_onnx_decoder s0) as (Hq5 & _).
  next_block Hrun5.
  assert (Hmk2 : Forall (fun ev : event fs => is_export ev = false) tr3).
  { eapply Forall_impl; [eassumption|]. intros ev Hev. now apply loading_quiet. }
  destruct r as [[]|e].
  2:{ left. split; [|reflexivity]. rewrite !app_assoc. apply Forall_app. split; [|assumption].
      apply Forall_app. split; [|assumption]. now rewrite <- app_assoc. }
  right. exists jmd, dp, feat, dec, (tr ++ tr0 ++ tr1), tr2, tr3, s0, s1.
  repeat (split; [assumption || reflexivity|]).
  cbn zeta. split; [|reflexivity].
  now rewrite <- !app_assoc.
Qed.

(** C2 (amended).  In every run of [main] whose [decoder_type] is neither
    ['ctc'] nor ['classification'], no checkpoint is read and no weight is
    loaded, and the run does not return; when lines 54-70 pass without an
    exception (the configuration is read, the feature counts are found in
    it, the factory and the encoder are built), the exception raised is the
    [ValueError] of line 88. *)
Theorem C2_decoder_type_validation (E : env)
    (config_file nn_encoder nn_decoder nn_onnx_encoder nn_onnx_decoder : string)
    (pre_v09_model : bool) (batch_size time_steps : Z) (decoder_type : string) (s : fs) :
  decoder_type <> "ctc" -> decoder_type <> "classification" ->
  let run := main E config_file nn_encoder nn_decoder nn_onnx_encoder nn_onnx_decoder
               pre_v09_model batch_size time_steps decoder_type s in
  Forall (fun ev => reads_checkpoint ev = false) (trace run) /\
  is_ok (outcome run) = false /\
  (is_ok (outcome (before_decoder E config_file s)) = true ->
   outcome run
   = Raise (ValueError "`decoder_type` must be one of ['ctc', 'classification']")).
Proof.
  intros Hctc Hcls run. subst run. unfold main.
  pose proof (before_decoder_run E config_file s) as (Hs1 & Hq1 & _).
  assert (Hquiet : Forall (fun ev : event fs => reads_checkpoint ev = false)
                     (trace (before_decoder E config_file s))).
  { eapply Forall_impl; [exact Hq1|]. intros ev Hev. now apply encoder_setup_quiet. }
  next_block Hrun1. subst.
  destruct r as [[[jmd dp] feat]|e]; [|repeat split; [assumption | discriminate]].
  pose proof (initializing_decoder_run E jmd dp feat decoder_type s)
    as (_ & _ & _ & Hbad & _).
  destruct (Hbad Hctc Hcls) as [Hout Htr].
  next_block Hrun2. subst. rewrite app_nil_r. now repeat split.
Qed.

(** C3 (amended).  In every run of [main] with [decoder_type]
    ['classification'] whose configuration document has no top-level
    [labels], no decoder is built, no checkpoint is read, and the run does
    not return; when lines 54-70 pass without an exception, the exception
    raised is the [ValueError] of line 82, and the encoder has been built by
    then. *)
Theorem C3_classification_without_labels (E : env)
    (config_file nn_encoder nn_decoder nn_onnx_encoder nn_onnx_decoder : string)
    (pre_v09_model : bool) (batch_size time_steps : Z) (s : fs) (jmd : yaml) :
  yaml_load E config_file = Ok jmd -> py_in "labels" jmd = Ok false ->
  let run := main E config_file nn_encoder nn_decoder nn_onnx_encoder nn_onnx_decoder
               pre_v09_model batch_size time_steps "classification" s in
  Forall (fun ev => constructs_decoder ev = false /\ reads_checkpoint ev = false)
    (trace run) /\
  is_ok (outcome run) = false /\
  (is_ok (outcome (before_decoder E config_file s)) = true ->
   outcome run = Raise (ValueError
     "List of class labels must be defined in model config file with key 'labels'") /\
   exists kwargs, Construct Encoder kwargs ∈ trace run).
Proof.
  intros Hy Hlabels run. subst run. unfold main.
  pose proof (before_decoder_run E config_file s) as (Hs1 & Hq1 & Hok1).
  assert (Hquiet : Forall (fun ev : event fs =>
                     constructs_decoder ev = false /\ reads_checkpoint ev = false)
                     (trace (before_decoder E config_file s))).
  { eapply Forall_impl; [exact Hq1|]. intros ev Hev.
    now apply encoder_setup_quiet in Hev as (_ & ? & ?). }
  next_block Hrun1. subst.
  destruct r as [[[jmd' dp] feat]|e]; [|repeat split; easy].
  destruct (Hok1 _ _ _ eq_refl) as (Hy' & _ & _ & Hbuilt).
  assert (jmd' = jmd) as -> by congruence.
  pose proof (initializing_decoder_run E jmd dp feat "classification" s)
    as (_ & _ & _ & _ & Hnone).
  destruct (Hnone eq_refl Hlabels) as [Hout Htr].
  next_block Hrun2. subst. rewrite app_nil_r. now repeat split.
Qed.

(** A run that returns has made exactly two exports, the encoder's
    first. *)
Lemma main_returns_exports (E : env)
    (config_file nn_encoder nn_decoder nn_onnx_encoder nn_onnx_decoder : string)
    (pre_v09_model : bool) (batch_size time_steps : Z) (decoder_type : string) (s : fs) :
  let run := main E config_file nn_encoder nn_decoder nn_onnx_encoder nn_onnx_decoder
               pre_v09_model batch_size time_steps decoder_type s in
  outcome run = Ok tt ->
  exists m dummy_e dummy_d s_e s_d,
    List.filter is_export (trace run)
    = [DeploymentExport Encoder nn_onnx_encoder dummy_e s_e;
       DeploymentExport m nn_onnx_decoder dummy_d s_d].
Proof.
  intros run.
  destruct (main_reaches_export E config_file nn_encoder nn_decoder nn_onnx_encoder
              nn_onnx_decoder pre_v09_model batch_size time_steps decoder_type s)
    as [[Hnone Hfail] | (jmd & dp & feat & dec & pre & mk1 & mk2 & s4 & s5 &
         Hy & Hdp & Hfeat & Hdec & Hpre & Hmk1 & Hmk2 & Htr & Hout)];
    fold run in Hnone, Hfail || fold run in Htr, Hout.
  { intros Hok. rewrite Hok in Hfail. discriminate. }
  pose proof (create_export_directory_run nn_onnx_encoder s) as (Hq1 & _).
  pose proof (create_export_directory_run nn_onnx_decoder s4) as (Hq2 & _).
  rewrite Hmk1 in Hq1. rewrite Hmk2 in Hq2. unfold trace in Hq1, Hq2. simpl in Hq1, Hq2.
  assert (Hquiet : Forall (fun ev : event fs => is_export ev = false) (pre ++ mk1 ++ mk2)).
  { repeat (apply Forall_app; split); [assumption| |];
      (eapply Forall_impl; [eassumption|]); intros ev Hev; now apply loading_quiet. }
  destruct (exporting_run E dec nn_onnx_encoder nn_onnx_decoder batch_size time_steps
              feat s5) as [_ Hboth].
  intros Hok. rewrite Hout in Hok. destruct (Hboth Hok) as (de & dd & Hf).
  exists dec, de, dd, s5, (written s5 nn_onnx_encoder).
  rewrite Htr, !app_assoc, List.filter_app, Hf.
  rewrite <- app_assoc.
  replace (List.filter is_export (pre ++ mk1 ++ mk2)) with (@nil (event fs));
    [reflexivity|].
  symmetry. induction Hquiet as [|ev l Hev _ IH]; [reflexivity|].
  simpl. now rewrite Hev.
Qed.

(** C6.  In every run of [main], every export is called with a dummy input
    that is a tensor of zeros, with as many entries as its shape says: the
    export of the encoder, to the encoder output path, with shape
    ([batch_size], 64, [time_steps]), and the export of the decoder, to the
    decoder output path, with shape ([batch_size], [feat_in],
    [time_steps // 2]), where [feat_in] is the number found in the
    configuration under [init_params.decoder_params.init_params.feat_in] (an
    [int]; a [bool] counts as 1 or 0).  There is no other export, and a run
    that returns has made both, the encoder's first. *)
Theorem C6_dummy_inputs (E : env)
    (config_file nn_encoder nn_decoder nn_onnx_encoder nn_onnx_decoder : string)
    (pre_v09_model : bool) (batch_size time_steps : Z) (decoder_type : string) (s : fs) :
  let run := main E config_file nn_encoder nn_decoder nn_onnx_encoder nn_onnx_decoder
               pre_v09_model batch_size time_steps decoder_type s in
  (forall m path dummy s',
     DeploymentExport m path dummy s' ∈ trace run ->
     well_formed dummy /\
     Forall (fun x => x = 0%Q) (data dummy) /\
     ((m = Encoder /\ path = nn_onnx_encoder /\
       map Z.of_nat (shape dummy) = [batch_size; 64; time_steps]%Z)
      \/
      (is_decoder m = true /\ path = nn_onnx_decoder /\
       exists jmd dp feat feat_in,
         yaml_load E config_file = Ok jmd /\
         (init_params ← getitem jmd "init_params";
          decoder ← getitem init_params "decoder_params";
          getitem decoder "init_params") = Ok dp /\
         getitem dp "feat_in" = Ok feat /\
         (feat = YInt feat_in \/ exists b, feat = YBool b /\ feat_in = Z.b2z b) /\
         map Z.of_nat (shape dummy) = [batch_size; feat_in; time_steps / 2]%Z)))
  /\
  (outcome run = Ok tt ->
   exists m dummy_e dummy_d s_e s_d,
     List.filter is_export (trace run)
     = [DeploymentExport Encoder nn_onnx_encoder dummy_e s_e;
        DeploymentExport m nn_onnx_decoder dummy_d s_d]).
Proof.
  intros run.
  destruct (main_reaches_export E config_file nn_encoder nn_decoder nn_onnx_encoder
              nn_onnx_decoder pre_v09_model batch_size time_steps decoder_type s)
    as [[Hnone Hfail] | (jmd & dp & feat & dec & pre & mk1 & mk2 & s4 & s5 &
         Hy & Hdp & Hfeat & Hdec & Hpre & Hmk1 & Hmk2 & Htr & Hout)];
    fold run in Hnone, Hfail || fold run in Htr, Hout.
  - split; [|apply main_returns_exports].
    intros m path dummy s' Hin.
    rewrite Forall_forall in Hnone. apply Hnone in Hin. discriminate.
  - pose proof (create_export_directory_run nn_onnx_encoder s) as (Hq1 & _).
    pose proof (create_export_directory_run nn_onnx_decoder s4) as (Hq2 & _).
    rewrite Hmk1 in Hq1. rewrite Hmk2 in Hq2. unfold trace in Hq1, Hq2. simpl in Hq1, Hq2.
    assert (Hquiet : Forall (fun ev : event fs => is_export ev = false) (pre ++ mk1 ++ mk2)).
    { repeat (apply Forall_app; split); [assumption| |];
        (eapply Forall_impl; [eassumption|]); intros ev Hev; now apply loading_quiet. }
    destruct (exporting_run E dec nn_onnx_encoder nn_onnx_decoder batch_size time_steps
                feat s5) as [Hevents Hboth].
    split; [|apply main_returns_exports].
    intros m path dummy s' Hin. rewrite Htr, !app_assoc in Hin.
    apply elem_of_app in Hin as [Hin|Hin].
    { rewrite <- app_assoc in Hin. rewrite Forall_forall in Hquiet.
      apply Hquiet in Hin. discriminate. }
    destruct (Hevents _ _ _ _ Hin) as [(-> & -> & _ & Hz) | (-> & -> & _ & f & Hf & Hz)];
      pose proof (zeros_shape _ _ Hz) as Hshape;
      apply zeros_inv in Hz as (_ & _ & Hwf & Hzero);
      (split; [exact Hwf|]); (split; [exact Hzero|]).
    + left. now repeat split.
    + right. repeat split; try assumption. exists jmd, dp, feat, f.
      repeat split; try assumption.
      destruct feat; try discriminate Hf; injection Hf as <-; eauto.
Qed.

(** C7 (amended).  In every run of [main], at the time of each export
    [os.path.exists] holds of the directory part of its output path, unless
    the path has no directory part: the encoder's export and the decoder's
    are both called after both directory steps.  What exists there may be a
    regular file, the script does not look further.  When the directory part
    is not empty and nothing existed there when the script looked (at the
    start for the encoder's path, after the encoder's directory step for the
    decoder's), the script has called [os.makedirs] on it before the
    export. *)
Theorem C7_export_directories (E : env)
    (config_file nn_encoder nn_decoder nn_onnx_encoder nn_onnx_decoder : string)
    (pre_v09_model : bool) (batch_size time_steps : Z) (decoder_type : string) (s : fs) :
  let run := main E config_file nn_encoder nn_decoder nn_onnx_encoder nn_onnx_decoder
               pre_v09_model batch_size time_steps decoder_type s in
  forall m path dummy s',
    DeploymentExport m path dummy s' ∈ trace run ->
    let base := (os_path_split path).1 in
    let looked_in :=
      if is_decoder m then final (create_export_directory nn_onnx_encoder s) else s in
    (base = "" \/ os_path_exists s' base = true) /\
    (base <> "" -> os_path_exists looked_in base = false ->
     exists tr1 tr2,
       trace run = tr1 ++ Makedirs base :: tr2 /\
       DeploymentExport m path dummy s' ∈ tr2).
Proof.
  intros run m path dummy s' Hin.
  destruct (main_reaches_export E config_file nn_encoder nn_decoder nn_onnx_encoder
              nn_onnx_decoder pre_v09_model batch_size time_steps decoder_type s)
    as [[Hnone Hfail] | (jmd & dp & feat & dec & pre & mk1 & mk2 & s4 & s5 &
         Hy & Hdp & Hfeat & Hdec & Hpre & Hmk1 & Hmk2 & Htr & Hout)];
    fold run in Hnone, Hfail || fold run in Htr, Hout.
  { rewrite Forall_forall in Hnone. apply Hnone in Hin. discriminate. }
  pose proof (create_export_directory_run nn_onnx_encoder s) as (Hq1 & Hkeep1 & Hex1 & Hmade1).
  pose proof (create_export_directory_run nn_onnx_decoder s4) as (Hq2 & Hkeep2 & Hex2 & Hmade2).
  rewrite Hmk1 in Hq1, Hkeep1, Hex1, Hmade1. rewrite Hmk2 in Hq2, Hkeep2, Hex2, Hmade2.
  unfold trace, final, outcome in Hq1, Hkeep1, Hex1, Hmade1, Hq2, Hkeep2, Hex2, Hmade2.
  simpl in Hq1, Hkeep1, Hex1, Hmade1, Hq2, Hkeep2, Hex2, Hmade2.
  assert (Hquiet : Forall (fun ev : event fs => is_export ev = false) (pre ++ mk1 ++ mk2)).
  { repeat (apply Forall_app; split); [assumption| |];
      (eapply Forall_impl; [eassumption|]); intros ev Hev; now apply loading_quiet. }
  destruct (exporting_run E dec nn_onnx_encoder nn_onnx_decoder batch_size time_steps
              feat s5) as [Hevents _].
  assert (Hex : DeploymentExport m path dummy s'
                ∈ trace (exporting E dec nn_onnx_encoder nn_onnx_decoder batch_size
                           time_steps feat s5)).
  { rewrite Htr, !app_assoc in Hin. apply elem_of_app in Hin as [Hin|Hin]; [|exact Hin].
    rewrite <- app_assoc in Hin. rewrite Forall_forall in Hquiet.
    apply Hquiet in Hin. discriminate. }
  destruct (Hevents _ _ _ _ Hex) as [(-> & -> & -> & _) | (-> & -> & -> & _)].
  - simpl. split.
    + destruct (Hex1 eq_refl) as [Hempty|Hthere]; [now left | right; now apply Hkeep2].
    + intros Hbase Habsent. exists pre, (mk2 ++ trace (exporting E dec nn_onnx_encoder
        nn_onnx_decoder batch_size time_steps feat s5)).
      split; [|apply elem_of_app; now right].
      rewrite Htr, (Hmade1 eq_refl Hbase Habsent). reflexivity.
  - rewrite Hdec. rewrite Hmk1. unfold final. simpl. split.
    + destruct (Hex2 eq_refl) as [Hempty|Hthere]; [now left | right; now apply written_keeps].
    + intros Hbase Habsent. exists (pre ++ mk1), (trace (exporting E dec nn_onnx_encoder
        nn_onnx_decoder batch_size time_steps feat s5)).
      split; [|assumption].
      rewrite Htr, (Hmade2 eq_refl Hbase Habsent), <- !app_assoc. reflexivity.
Qed.

(** ** The run of [main], stage by stage *)

#[local] Arguments finishing : simpl never.
#[local] Arguments encoder_kwargs_of : simpl never.
#[local] Arguments decoder_params_of : simpl never.

(** [main] is its stages in sequence: a run stops at the first stage that
    raises, with the calls made so far. *)
Lemma main_unfold (E : env)
    (config_file nn_encoder nn_decoder nn_onnx_encoder nn_onnx_decoder : string)
    (pre_v09_model : bool) (batch_size time_steps : Z) (decoder_type : string) (s : fs) :
  let run := main E config_file nn_encoder nn_decoder nn_onnx_encoder nn_onnx_decoder
               pre_v09_model batch_size time_steps decoder_type s in
  (exists e tr1,
     before_decoder E config_file s = (Raise e, s, tr1) /\ run = (Raise e, s, tr1))
  \/
  (exists jmd dp feat tr1,
     before_decoder E config_file s = (Ok (jmd, dp, feat), s, tr1) /\
     ((exists e tr2,
         initializing_decoder E jmd dp feat decoder_type s = (Raise e, s, tr2) /\
         run = (Raise e, s, tr1 ++ tr2))
      \/
      (exists dec tr2,
         initializing_decoder E jmd dp feat decoder_type s = (Ok dec, s, tr2) /\
         ((exists e tr3,
             loading_checkpoints E pre_v09_model nn_encoder nn_decoder dec s
             = (Raise e, s, tr3) /\
             run = (Raise e, s, tr1 ++ tr2 ++ tr3))
          \/
          (exists tr3,
             loading_checkpoints E pre_v09_model nn_encoder nn_decoder dec s
             = (Ok tt, s, tr3) /\
             let fin := finishing E dec nn_onnx_encoder nn_onnx_decoder batch_size
                          time_steps feat s in
             run = (outcome fin, final fin, tr1 ++ tr2 ++ tr3 ++ trace fin)))))).
Proof.
  intros run. subst run. unfold main.
  pose proof (before_decoder_run E config_file s) as (Hs1 & _).
  next_block Hrun1. subst.
  destruct r as [[[jmd dp] feat]|e]; [right|left; eauto].
  exists jmd, dp, feat, tr. split; [reflexivity|].
  pose proof (initializing_decoder_run E jmd dp feat decoder_type s) as (Hs2 & _).
  next_block Hrun2. subst.
  destruct r as [dec|e]; [right|left; eauto].
  exists dec, tr0. split; [reflexivity|].
  pose proof (loading_checkpoints_run E pre_v09_model nn_encoder nn_decoder dec s)
    as (Hs3 & _).
  next_block Hrun3. subst.
  destruct r as [[]|e];
    [right|left; exists e, tr1; split; [reflexivity | now rewrite <- ?app_assoc]].
  exists tr1. split; [reflexivity|].
  change (create_export_directory nn_onnx_encoder
          ≫= (fun _ => create_export_directory nn_onnx_decoder
          ≫= (fun _ => exporting E dec nn_onnx_encoder nn_onnx_decoder batch_size
                         time_steps feat)))
    with (finishing E dec nn_onnx_encoder nn_onnx_decoder batch_size time_steps feat).
  destruct (finishing E dec nn_onnx_encoder nn_onnx_decoder batch_size time_steps feat s)
    as [[r4 s4] tr4].
  simpl. now rewrite <- ?app_assoc.
Qed.

Lemma finishing_unfold (E : env) (dec : module)
    (nn_onnx_encoder nn_onnx_decoder : string) (batch_size time_steps : Z)
    (feat : yaml) (s : fs) :
  let fin := finishing E dec nn_onnx_encoder nn_onnx_decoder batch_size time_steps feat s in
  (exists e s4 mk1,
     create_export_directory nn_onnx_encoder s = (Raise e, s4, mk1) /\
     fin = (Raise e, s4, mk1))
  \/
  (exists s4 mk1,
     create_export_directory nn_onnx_encoder s = (Ok tt, s4, mk1) /\
     ((exists e s5 mk2,
         create_export_directory nn_onnx_decoder s4 = (Raise e, s5, mk2) /\
         fin = (Raise e, s5, mk1 ++ mk2))
      \/
      (exists s5 mk2,
         create_export_directory nn_onnx_decoder s4 = (Ok tt, s5, mk2) /\
         let ex := exporting E dec nn_onnx_encoder nn_onnx_decoder batch_size
                     time_steps feat s5 in
         fin = (outcome ex, final ex, mk1 ++ mk2 ++ trace ex)))).
Proof.
  intros fin. subst fin. unfold finishing.
  next_block Hrun1.
  destruct r as [[]|e]; [right|left; eauto].
  exists s0, tr. split; [reflexivity|].
  next_block Hrun2.
  destruct r as [[]|e]; [right|left; eauto].
  exists s1, tr0. split; [reflexivity|].
  destruct (exporting E dec nn_onnx_encoder nn_onnx_decoder batch_size time_steps feat s1)
    as [[r5 s5] tr5].
  reflexivity.
Qed.

(** A directory step either makes no call (there is no directory part, or
    it exists) or calls [os.makedirs] once, on a directory part that is not
    empty and does not exist. *)
Lemma create_export_directory_calls (nn_onnx : string) (s : fs) :
  let run := create_export_directory nn_onnx s in
  let base := (os_path_split nn_onnx).1 in
  (run = (Ok tt, s, []) /\ (base = "" \/ os_path_exists s base = true))
  \/
  (base <> "" /\ os_path_exists s base = false /\
   ((exists s', os_makedirs s base = Ok s' /\ run = (Ok tt, s', [Makedirs base]))
    \/
    (exists e, os_makedirs s base = Raise e /\ run = (Raise e, s, [Makedirs base])))).
Proof.
  unfold create_export_directory, path_exists, makedirs.
  destruct (os_path_split nn_onnx) as [base export_fn]. simpl.
  destruct (String.eqb base "") eqn:Hbase.
  - apply String.eqb_eq in Hbase as ->. left. split; [reflexivity | now left].
  - apply String.eqb_neq in Hbase. run_block.
    + left. split; [reflexivity | now right].
    + right. repeat split; try assumption. left. eauto.
    + right. repeat split; try assumption. right. eauto.
Qed.



Lemma exporting_stage (E : env) (dec : module)
    (nn_onnx_encoder nn_onnx_decoder : string) (batch_size time_steps : Z)
    (feat : yaml) (s : fs) :
  let ex := exporting E dec nn_onnx_encoder nn_onnx_decoder batch_size time_steps feat s in
  Forall (fun ev => export_stage_event ev = true) (trace ex) /\
  (outcome ex = Ok tt -> exists tr, trace ex = tr ++ [LoggingInfo success_message]) /\
  (is_ok (outcome ex) = false ->
   Forall (fun ev => ev <> LoggingInfo success_message) (trace ex)) /\
  (forall p, os_path_exists s p = true -> os_path_exists (final ex) p = true) /\
  (Forall (fun ev => is_export ev = false) (trace ex) -> final ex = s).
Proof.
  unfold exporting, export_module, nf_deployment_export.
  run_block; (split; [events|]); (split; [|split; [|split]]);
    try discriminate; try (intros _; events; discriminate);
    try (intros _; eexists [_; _; _; _]; reflexivity);
    try (intros p Hp; repeat apply written_keeps; exact Hp);
    try (intros Hall; repeat (apply Forall_cons in Hall as [? Hall]); discriminate);
    try reflexivity.
Qed.

(** Solves a goal about an event that is a member of an explicit trace by
    looking at each event of the trace. *)
Ltac member Hin :=
  repeat (apply elem_of_cons in Hin as [Hin|Hin]; [simplify_eq|]);
  try (apply elem_of_nil in Hin as []).

Lemma loading_checkpoints_calls (E : env) (pre_v09_model : bool)
    (nn_encoder nn_decoder : string) (dec : module) (s : fs) :
  let run := loading_checkpoints E pre_v09_model nn_encoder nn_decoder dec s in
  Forall (fun ev => checkpoint_stage_event ev = true) (trace run) /\
  (forall path, TorchLoad path ∈ trace run ->
     pre_v09_model = true /\ path = nn_encoder) /\
  (forall new_ckpt, LoadStateDict new_ckpt ∈ trace run ->
     pre_v09_model = true /\
     exists ckpt, torch_load E nn_encoder = Ok ckpt /\ new_ckpt = convert ckpt) /\
  (forall m path, RestoreFrom m path ∈ trace run ->
     (m = Encoder /\ path = nn_encoder /\ pre_v09_model = false) \/
     (m = dec /\ path = nn_decoder)) /\
  (outcome run = Ok tt ->
   restore_from E dec nn_decoder = Ok tt /\
   if pre_v09_model
   then exists ckpt, torch_load E nn_encoder = Ok ckpt /\
                     load_state_dict E (convert ckpt) = Ok tt
   else restore_from E Encoder nn_encoder = Ok tt).
Proof.
  unfold loading_checkpoints. destruct pre_v09_model; run_block.
  all: (split; [events|]).
  all: (split; [intros path Hin; member Hin; auto|]).
  all: (split; [intros new_ckpt Hin; member Hin; eauto|]).
  all: (split; [intros m path Hin; member Hin; auto|]).
  all: try discriminate.
  all: intros Hok; repeat match goal with u : unit |- _ => destruct u end.
  all: split; [exact Hok | eauto].
Qed.

Lemma initializing_decoder_calls (E : env) (jmd dp feat : yaml) (decoder_type : string)
    (s : fs) :
  let run := initializing_decoder E jmd dp feat decoder_type s in
  (forall ev, ev ∈ trace run -> exists m kwargs, ev = Construct m kwargs) /\
  (length (trace run) <= 1)%nat /\
  (forall m kwargs, Construct m kwargs ∈ trace run ->
     (m = DecoderForCTC /\ decoder_type = "ctc" /\
      exists num_classes vocabulary,
        getitem dp "num_classes" = Ok num_classes /\
        getitem dp "vocabulary" = Ok vocabulary /\
        kwargs = [("feat_in", feat); ("num_classes", num_classes);
                  ("vocabulary", vocabulary)])
     \/
     (m = DecoderForClassification /\ decoder_type = "classification" /\
      exists labels n,
        py_in "labels" jmd = Ok true /\
        getitem jmd "labels" = Ok labels /\ py_len labels = Ok n /\
        kwargs = [("feat_in", feat); ("num_classes", YInt n)])) /\
  (forall m, outcome run = Ok m ->
     exists kwargs, trace run = [Construct m kwargs] /\ construct E m kwargs = Ok tt).
Proof.
  unfold initializing_decoder.
  destruct (String.eqb decoder_type "ctc") eqn:Hctc;
    [|destruct (String.eqb decoder_type "classification") eqn:Hcls].
  - apply String.eqb_eq in Hctc as ->.
    run_block; (split; [intros ev Hin; member Hin; eauto|]); (split; [simpl; lia|]);
      (split; [intros m kwargs Hin; member Hin; left; eauto 10|]);
      intros m; try discriminate; intros [= <-];
      repeat match goal with u : unit |- _ => destruct u end; eauto.
  - apply String.eqb_eq in Hcls as ->.
    run_block; (split; [intros ev Hin; member Hin; eauto|]); (split; [simpl; lia|]);
      (split; [intros m kwargs Hin; member Hin; right; eauto 10|]);
      intros m; try discriminate; intros [= <-];
      repeat match goal with u : unit |- _ => destruct u end; eauto.
  - run_block. repeat split; try (simpl; lia); try discriminate;
      intros; match goal with Hin : _ ∈ [] |- _ => apply elem_of_nil in Hin as [] end.
Qed.

Lemma before_decoder_calls (E : env) (config_file : string) (s : fs) :
  let run := before_decoder E config_file s in
  (forall m kwargs, Construct m kwargs ∈ trace run ->
     m = Encoder /\
     exists jmd, yaml_load E config_file = Ok jmd /\ encoder_kwargs_of jmd = Ok kwargs) /\
  (length (List.filter constructs_model (trace run)) <= 1)%nat /\
  (forall e,
     (jmd ← yaml_load E config_file;
      dp ← decoder_params_of jmd;
      getitem dp "feat_in") = Raise e ->
     outcome run = Raise e /\
     Forall (fun ev => reads_config ev = true) (trace run)).
Proof.
  unfold before_decoder, loading_config_file, determining_model_shape,
    initializing_encoder, encoder_kwargs_of, decoder_params_of.
  run_block.
  all: split;
    [intros m kwargs Hin; member Hin;
     (split; [reflexivity|]; eexists; split; [reflexivity|];
      unfold mbind, result_bind;
      repeat match goal with Heq : ?x = Ok _ |- context [?x] => rewrite Heq end;
      reflexivity)|].
  all: split; [simpl; lia|].
  all: intros e0; unfold mbind, result_bind;
    repeat match goal with Heq : ?x = _ |- context [?x] => rewrite Heq end;
    try discriminate; (intros [= <-]; split; [reflexivity | events]).
Qed.

(** A property of the calls of every stage is a property of the calls of
    the run. *)
Lemma main_trace_Forall (P : event fs -> Prop) (E : env)
    (config_file nn_encoder nn_decoder nn_onnx_encoder nn_onnx_decoder : string)
    (pre_v09_model : bool) (batch_size time_steps : Z) (decoder_type : string) (s : fs) :
  Forall P (trace (before_decoder E config_file s)) ->
  (forall jmd dp feat,
     outcome (before_decoder E config_file s) = Ok (jmd, dp, feat) ->
     Forall P (trace (initializing_decoder E jmd dp feat decoder_type s))) ->
  (forall jmd dp feat dec,
     outcome (before_decoder E config_file s) = Ok (jmd, dp, feat) ->
     outcome (initializing_decoder E jmd dp feat decoder_type s) = Ok dec ->
     Forall P (trace (loading_checkpoints E pre_v09_model nn_encoder nn_decoder dec s))) ->
  (forall jmd dp feat dec,
     outcome (before_decoder E config_file s) = Ok (jmd, dp, feat) ->
     outcome (initializing_decoder E jmd dp feat decoder_type s) = Ok dec ->
     outcome (loading_checkpoints E pre_v09_model nn_encoder nn_decoder dec s) = Ok tt ->
     Forall P (trace (finishing E dec nn_onnx_encoder nn_onnx_decoder batch_size
                        time_steps feat s))) ->
  Forall P (trace (main E config_file nn_encoder nn_decoder nn_onnx_encoder
                     nn_onnx_decoder pre_v09_model batch_size time_steps decoder_type s)).
Proof.
  intros H1 H2 H3 H4.
  destruct (main_unfold E config_file nn_encoder nn_decoder nn_onnx_encoder
              nn_onnx_decoder pre_v09_model batch_size time_steps decoder_type s)
    as [(e & tr1 & Hb & ->) |
        (jmd & dp & feat & tr1 & Hb &
         [(e & tr2 & Hd & ->) |
          (dec & tr2 & Hd &
           [(e & tr3 & Hl & ->) | (tr3 & Hl & ->)])])];
    rewrite Hb in H1, H2, H3, H4; unfold trace, outcome in *; simpl in *.
  - exact H1.
  - specialize (H2 _ _ _ eq_refl). rewrite Hd in H2. apply Forall_app. now split.
  - specialize (H2 _ _ _ eq_refl).
    pose proof (fun dec => H3 jmd dp feat dec eq_refl) as H3'.
    rewrite Hd in H2, H3'. specialize (H3' _ eq_refl). rewrite Hl in H3'.
    repeat (apply Forall_app; split); assumption.
  - specialize (H2 _ _ _ eq_refl).
    pose proof (fun dec => H3 jmd dp feat dec eq_refl) as H3'.
    pose proof (fun dec => H4 jmd dp feat dec eq_refl) as H4'.
    rewrite Hd in H2, H3', H4'. specialize (H3' _ eq_refl). specialize (H4' _ eq_refl).
    rewrite Hl in H3', H4'. specialize (H4' eq_refl).
    repeat (apply Forall_app; split); assumption.
Qed.

Lemma finishing_trace_Forall (P : event fs -> Prop) (E : env) (dec : module)
    (nn_onnx_encoder nn_onnx_decoder : string) (batch_size time_steps : Z)
    (feat : yaml) (s : fs) :
  (forall s', Forall P (trace (create_export_directory nn_onnx_encoder s'))) ->
  (forall s', Forall P (trace (create_export_directory nn_onnx_decoder s'))) ->
  (forall s', Forall P (trace (exporting E dec nn_onnx_encoder nn_onnx_decoder
                                 batch_size time_steps feat s'))) ->
  Forall P (trace (finishing E dec nn_onnx_encoder nn_onnx_decoder batch_size
                     time_steps feat s)).
Proof.
  intros H1 H2 H3.
  destruct (finishing_unfold E dec nn_onnx_encoder nn_onnx_decoder batch_size
              time_steps feat s)
    as [(e & s4 & mk1 & Hc1 & ->) |
        (s4 & mk1 & Hc1 &
         [(e & s5 & mk2 & Hc2 & ->) | (s5 & mk2 & Hc2 & ->)])];
    specialize (H1 s); rewrite Hc1 in H1; try (specialize (H2 s4); rewrite Hc2 in H2);
    unfold trace in *; simpl in *.
  - exact H1.
  - apply Forall_app. now split.
  - repeat (apply Forall_app; split); try assumption. apply H3.
Qed.

Lemma create_export_directory_makedirs (nn_onnx : string) (s : fs) :
  Forall (fun ev => ev = Makedirs (os_path_split nn_onnx).1
                    /\ (os_path_split nn_onnx).1 <> "")
    (trace (create_export_directory nn_onnx s)).
Proof.
  destruct (create_export_directory_calls nn_onnx s)
    as [[-> _] | (Hbase & _ & [(s' & _ & ->) | (e & _ & ->)])];
    unfold trace; simpl; repeat constructor; assumption.
Qed.

(** Weakening of the property of the calls of a stage. *)
Ltac stage_events Hstage :=
  eapply Forall_impl; [apply Hstage|]; simpl;
  let ev := fresh "ev" in intros ev; destruct ev; simpl;
  try discriminate; try tauto; try (intros; congruence).

Lemma initializing_decoder_events (E : env) (jmd dp feat : yaml) (decoder_type : string)
    (s : fs) :
  Forall (fun ev => exists m kwargs, ev = Construct m kwargs /\ is_decoder m = true)
    (trace (initializing_decoder E jmd dp feat decoder_type s)).
Proof.
  apply Forall_forall. intros ev Hin.
  destruct (initializing_decoder_calls E jmd dp feat decoder_type s) as (Hc & _ & Hk & _).
  destruct (Hc ev Hin) as (m' & kwargs & ->).
  exists m', kwargs. split; [reflexivity|].
  destruct (Hk _ _ Hin) as [(-> & _) | (-> & _)]; reflexivity.
Qed.

Lemma exporting_events (E : env) (dec : module)
    (nn_onnx_encoder nn_onnx_decoder : string) (batch_size time_steps : Z)
    (feat : yaml) (s : fs) :
  Forall (fun ev => export_stage_event ev = true)
    (trace (exporting E dec nn_onnx_encoder nn_onnx_decoder batch_size time_steps feat s)).
Proof. apply exporting_stage. Qed.

Lemma loading_checkpoints_events (E : env) (pre_v09_model : bool)
    (nn_encoder nn_decoder : string) (dec : module) (s : fs) :
  Forall (fun ev => checkpoint_stage_event ev = true)
    (trace (loading_checkpoints E pre_v09_model nn_encoder nn_decoder dec s)).
Proof. apply loading_checkpoints_calls. Qed.

Lemma before_decoder_events (E : env) (config_file : string) (s : fs) :
  Forall (fun ev => encoder_setup_event ev = true) (trace (before_decoder E config_file s)).
Proof. apply before_decoder_run. Qed.

(** X1.  Which checkpoint call is made on which file.  [torch.load] and
    [load_state_dict] are only called when [pre_v09_model] is set, on the
    encoder checkpoint and on the conversion of what [torch.load] returned;
    [restore_from] is called on the encoder (with the encoder checkpoint)
    only when [pre_v09_model] is not set, and otherwise only on the decoder,
    with the decoder checkpoint: the decoder's weights are never
    converted. *)
Theorem main_checkpoint_calls (E : env)
    (config_file nn_encoder nn_decoder nn_onnx_encoder nn_onnx_decoder : string)
    (pre_v09_model : bool) (batch_size time_steps : Z) (decoder_type : string) (s : fs) :
  let run := main E config_file nn_encoder nn_decoder nn_onnx_encoder nn_onnx_decoder
               pre_v09_model batch_size time_steps decoder_type s in
  (forall path, TorchLoad path ∈ trace run ->
     pre_v09_model = true /\ path = nn_encoder) /\
  (forall new_ckpt, LoadStateDict new_ckpt ∈ trace run ->
     pre_v09_model = true /\
     exists ckpt, torch_load E nn_encoder = Ok ckpt /\ new_ckpt = convert ckpt) /\
  (forall m path, RestoreFrom m path ∈ trace run ->
     (m = Encoder /\ path = nn_encoder /\ pre_v09_model = false) \/
     (is_decoder m = true /\ path = nn_decoder)).
Proof.
  intros run.
  set (P := fun ev : event fs =>
    match ev with
    | TorchLoad path => pre_v09_model = true /\ path = nn_encoder
    | LoadStateDict new_ckpt =>
        pre_v09_model = true /\
        exists ckpt, torch_load E nn_encoder = Ok ckpt /\ new_ckpt = convert ckpt
    | RestoreFrom m path =>
        (m = Encoder /\ path = nn_encoder /\ pre_v09_model = false) \/
        (is_decoder m = true /\ path = nn_decoder)
    | _ => True
    end).
  assert (HP : Forall P (trace run)).
  { apply main_trace_Forall.
    - stage_events before_decoder_events.
    - intros jmd dp feat _.
      eapply Forall_impl; [apply initializing_decoder_events|].
      intros ev (m & kwargs & -> & _). exact I.
    - intros jmd dp feat dec _ Hdec.
      destruct (initializing_decoder_run E jmd dp feat decoder_type s)
        as (_ & _ & Hisdec & _).
      specialize (Hisdec _ Hdec).
      destruct (loading_checkpoints_calls E pre_v09_model nn_encoder nn_decoder dec s)
        as (_ & Hload & Hstate & Hrestore & _).
      apply Forall_forall. intros [] Hin; simpl; auto.
      destruct (Hrestore _ _ Hin) as [?|[-> ->]]; auto.
    - intros jmd dp feat dec _ _ _. apply finishing_trace_Forall; intros s'.
      + eapply Forall_impl; [apply create_export_directory_makedirs|].
        now intros ev [-> _].
      + eapply Forall_impl; [apply create_export_directory_makedirs|].
        now intros ev [-> _].
      + stage_events exporting_events. }
  rewrite Forall_forall in HP.
  repeat split.
  - now apply (HP (TorchLoad path)).
  - now apply (HP (TorchLoad path)).
  - now apply (HP (LoadStateDict new_ckpt)).
  - now apply (HP (LoadStateDict new_ckpt)).
  - intros m path Hin. now apply (HP (RestoreFrom m path)).
Qed.

(** ** The calls of a run that returns *)

Lemma before_decoder_success (E : env) (config_file : string) (s : fs)
    (jmd dp feat : yaml) :
  outcome (before_decoder E config_file s) = Ok (jmd, dp, feat) ->
  exists kwargs,
    encoder_kwargs_of jmd = Ok kwargs /\
    construct E Encoder kwargs = Ok tt /\
    trace (before_decoder E config_file s)
    = [LoggingInfo "Loading config file..."; OpenConfig config_file;
       LoggingInfo "Determining model shape...";
       LoggingInfoFormat "  Num encoder input features: {}" (YInt 64);
       LoggingInfoFormat "  Num decoder input features: {}" feat;
       NeuralModuleFactory; LoggingInfo "Initializing models...";
       Construct Encoder kwargs].
Proof.
  unfold before_decoder, loading_config_file, determining_model_shape,
    initializing_encoder.
  run_block; try discriminate.
  intros [= <- <- <-]. eexists. unfold encoder_kwargs_of, mbind, result_bind.
  repeat match goal with Heq : ?x = Ok _ |- context [?x] => rewrite Heq end.
  repeat match goal with u : unit |- _ => destruct u end.
  repeat split; assumption.
Qed.

Lemma loading_checkpoints_success (E : env) (pre_v09_model : bool)
    (nn_encoder nn_decoder : string) (dec : module) (s : fs) :
  outcome (loading_checkpoints E pre_v09_model nn_encoder nn_decoder dec s) = Ok tt ->
  exists loads,
    trace (loading_checkpoints E pre_v09_model nn_encoder nn_decoder dec s)
    = LoggingInfo "Loading checkpoints..." :: loads ++ [RestoreFrom dec nn_decoder] /\
    (pre_v09_model = true ->
     exists ckpt, torch_load E nn_encoder = Ok ckpt /\
       loads = [LoggingInfo "  Converting pre v0.9 checkpoint..."; TorchLoad nn_encoder;
                LoadStateDict (convert ckpt)]) /\
    (pre_v09_model = false -> loads = [RestoreFrom Encoder nn_encoder]).
Proof.
  unfold loading_checkpoints. destruct pre_v09_model; run_block; try discriminate;
    intros _.
  - eexists [_; _; _]. split; [reflexivity|]. split; [eauto | discriminate].
  - eexists [_]. split; [reflexivity|]. split; [discriminate | reflexivity].
Qed.

Lemma exporting_success (E : env) (dec : module)
    (nn_onnx_encoder nn_onnx_decoder : string) (batch_size time_steps : Z)
    (feat : yaml) (s : fs) :
  let ex := exporting E dec nn_onnx_encoder nn_onnx_decoder batch_size time_steps feat s in
  outcome ex = Ok tt ->
  exists dummy_e dummy_d,
    trace ex
    = [LoggingInfo "Exporting encoder...";
       DeploymentExport Encoder nn_onnx_encoder dummy_e s;
       LoggingInfo "Exporting decoder...";
       DeploymentExport dec nn_onnx_decoder dummy_d (written s nn_onnx_encoder);
       LoggingInfo success_message] /\
    final ex = written (written s nn_onnx_encoder) nn_onnx_decoder.
Proof.
  unfold exporting, export_module, nf_deployment_export.
  run_block; try discriminate. intros _. eauto.
Qed.

(** The calls of a run that returns, in order. *)
Lemma main_returns_trace (E : env)
    (config_file nn_encoder nn_decoder nn_onnx_encoder nn_onnx_decoder : string)
    (pre_v09_model : bool) (batch_size time_steps : Z) (decoder_type : string) (s : fs) :
  let run := main E config_file nn_encoder nn_decoder nn_onnx_encoder nn_onnx_decoder
               pre_v09_model batch_size time_steps decoder_type s in
  outcome run = Ok tt ->
  exists jmd dp feat dec enc_kwargs dec_kwargs loads mk1 mk2 dummy_e dummy_d s4 s5,
    yaml_load E config_file = Ok jmd /\
    decoder_params_of jmd = Ok dp /\
    getitem dp "feat_in" = Ok feat /\
    encoder_kwargs_of jmd = Ok enc_kwargs /\
    is_decoder dec = true /\
    (pre_v09_model = true ->
     exists ckpt, torch_load E nn_encoder = Ok ckpt /\
       loads = [LoggingInfo "  Converting pre v0.9 checkpoint..."; TorchLoad nn_encoder;
                LoadStateDict (convert ckpt)]) /\
    (pre_v09_model = false -> loads = [RestoreFrom Encoder nn_encoder]) /\
    create_export_directory nn_onnx_encoder s = (Ok tt, s4, mk1) /\
    create_export_directory nn_onnx_decoder s4 = (Ok tt, s5, mk2) /\
    trace run
    = [LoggingInfo "Loading config file..."; OpenConfig config_file;
       LoggingInfo "Determining model shape...";
       LoggingInfoFormat "  Num encoder input features: {}" (YInt 64);
       LoggingInfoFormat "  Num decoder input features: {}" feat;
       NeuralModuleFactory; LoggingInfo "Initializing models...";
       Construct Encoder enc_kwargs; Construct dec dec_kwargs;
       LoggingInfo "Loading checkpoints..."]
      ++ loads ++ [RestoreFrom dec nn_decoder] ++ mk1 ++ mk2
      ++ [LoggingInfo "Exporting encoder...";
          DeploymentExport Encoder nn_onnx_encoder dummy_e s5;
          LoggingInfo "Exporting decoder...";
          DeploymentExport dec nn_onnx_decoder dummy_d (written s5 nn_onnx_encoder);
          LoggingInfo success_message] /\
    final run = written (written s5 nn_onnx_encoder) nn_onnx_decoder.
Proof.
  intros run Hok.
  destruct (main_unfold E config_file nn_encoder nn_decoder nn_onnx_encoder
              nn_onnx_decoder pre_v09_model batch_size time_steps decoder_type s)
    as [(e & tr1 & Hb & Hrun) |
        (jmd & dp & feat & tr1 & Hb &
         [(e & tr2 & Hd & Hrun) |
          (dec & tr2 & Hd &
           [(e & tr3 & Hl & Hrun) | (tr3 & Hl & Hrun)])])];
    fold run in Hrun; rewrite Hrun in Hok |- *; try discriminate Hok.
  clear Hrun. unfold outcome in Hok. simpl in Hok.
  destruct (before_decoder_run E config_file s) as (_ & _ & Hcfg).
  destruct (Hcfg jmd dp feat) as (Hy & Hdp & Hfeat & _); [now rewrite Hb|].
  destruct (before_decoder_success E config_file s jmd dp feat)
    as (enc_kwargs & Henc & _ & Htr1); [now rewrite Hb|].
  rewrite Hb in Htr1. unfold trace in Htr1. simpl in Htr1. subst tr1.
  destruct (initializing_decoder_run E jmd dp feat decoder_type s) as (_ & _ & Hisdec & _).
  destruct (initializing_decoder_calls E jmd dp feat decoder_type s) as (_ & _ & _ & Hbuilt).
  rewrite Hd in Hisdec, Hbuilt. specialize (Hisdec _ eq_refl).
  destruct (Hbuilt _ eq_refl) as (dec_kwargs & Htr2 & _).
  unfold trace in Htr2. simpl in Htr2. subst tr2.
  destruct (loading_checkpoints_success E pre_v09_model nn_encoder nn_decoder dec s)
    as (loads & Htr3 & Hpre & Hnew); [now rewrite Hl|].
  rewrite Hl in Htr3. unfold trace in Htr3. simpl in Htr3. subst tr3.
  destruct (finishing_unfold E dec nn_onnx_encoder nn_onnx_decoder batch_size
              time_steps feat s)
    as [(e & s4 & mk1 & Hc1 & Hfin) |
        (s4 & mk1 & Hc1 &
         [(e & s5 & mk2 & Hc2 & Hfin) | (s5 & mk2 & Hc2 & Hfin)])];
    rewrite Hfin in Hok |- *; try discriminate Hok.
  clear Hfin. simpl in Hok.
  destruct (exporting_success E dec nn_onnx_encoder nn_onnx_decoder batch_size
              time_steps feat s5 Hok) as (dummy_e & dummy_d & Htr5 & Hfinal).
  exists jmd, dp, feat, dec, enc_kwargs, dec_kwargs, loads, mk1, mk2, dummy_e, dummy_d,
    s4, s5.
  unfold trace, final in *. simpl. rewrite Htr5, Hfinal.
  repeat (split; [assumption || reflexivity|]).
  split; [|reflexivity].
  simpl. rewrite <- !app_assoc. reflexivity.
Qed.

(** X2.  The calls of a run of [main] that returns, in order: the
    configuration is read, the factory and the encoder are built, then the
    decoder; the encoder's weights are loaded (converted or restored), then
    the decoder's; the directory steps follow, the encoder's first; then the
    encoder is exported and after it the decoder, and the last call logs the
    success message.  The files written are the two output paths. *)
Theorem main_returns_calls (E : env)
    (config_file nn_encoder nn_decoder nn_onnx_encoder nn_onnx_decoder : string)
    (pre_v09_model : bool) (batch_size time_steps : Z) (decoder_type : string) (s : fs) :
  let run := main E config_file nn_encoder nn_decoder nn_onnx_encoder nn_onnx_decoder
               pre_v09_model batch_size time_steps decoder_type s in
  outcome run = Ok tt ->
  exists jmd dp feat dec enc_kwargs dec_kwargs loads mk1 mk2 dummy_e dummy_d s4 s5,
    yaml_load E config_file = Ok jmd /\
    decoder_params_of jmd = Ok dp /\
    getitem dp "feat_in" = Ok feat /\
    encoder_kwargs_of jmd = Ok enc_kwargs /\
    is_decoder dec = true /\
    (pre_v09_model = true ->
     exists ckpt, torch_load E nn_encoder = Ok ckpt /\
       loads = [LoggingInfo "  Converting pre v0.9 checkpoint..."; TorchLoad nn_encoder;
                LoadStateDict (convert ckpt)]) /\
    (pre_v09_model = false -> loads = [RestoreFrom Encoder nn_encoder]) /\
    create_export_directory nn_onnx_encoder s = (Ok tt, s4, mk1) /\
    create_export_directory nn_onnx_decoder s4 = (Ok tt, s5, mk2) /\
    trace run
    = [LoggingInfo "Loading config file..."; OpenConfig config_file;
       LoggingInfo "Determining model shape...";
       LoggingInfoFormat "  Num encoder input features: {}" (YInt 64);
       LoggingInfoFormat "  Num decoder input features: {}" feat;
       NeuralModuleFactory; LoggingInfo "Initializing models...";
       Construct Encoder enc_kwargs; Construct dec dec_kwargs;
       LoggingInfo "Loading checkpoints..."]
      ++ loads ++ [RestoreFrom dec nn_decoder] ++ mk1 ++ mk2
      ++ [LoggingInfo "Exporting encoder...";
          DeploymentExport Encoder nn_onnx_encoder dummy_e s5;
          LoggingInfo "Exporting decoder...";
          DeploymentExport dec nn_onnx_decoder dummy_d (written s5 nn_onnx_encoder);
          LoggingInfo success_message] /\
    final run = written (written s5 nn_onnx_encoder) nn_onnx_decoder.
Proof. apply main_returns_trace. Qed.

Lemma suffix_after_prefix (P : event fs -> bool) (l1 l2 a b : list (event fs))
    (ev : event fs) :
  Forall (fun x => P x = false) l1 -> P ev = true ->
  l1 ++ l2 = a ++ ev :: b -> exists c, l2 = c ++ ev :: b.
Proof.
  revert a. induction l1 as [|x l1 IH]; intros a Hl1 Hev Heq.
  - exists a. exact Heq.
  - apply Forall_cons in Hl1 as [Hx Hl1]. destruct a as [|y a]; simpl in Heq.
    + injection Heq as -> _. congruence.
    + injection Heq as -> Heq. now apply (IH a).
Qed.

Lemma finishing_events (E : env) (dec : module)
    (nn_onnx_encoder nn_onnx_decoder : string) (batch_size time_steps : Z)
    (feat : yaml) (s : fs) :
  Forall (fun ev => is_makedirs ev = true \/ export_stage_event ev = true)
    (trace (finishing E dec nn_onnx_encoder nn_onnx_decoder batch_size time_steps feat s)).
Proof.
  apply finishing_trace_Forall; intros s'.
  - eapply Forall_impl; [apply create_export_directory_makedirs|].
    intros ev [-> _]. now left.
  - eapply Forall_impl; [apply create_export_directory_makedirs|].
    intros ev [-> _]. now left.
  - eapply Forall_impl; [apply exporting_events|]. intros ev Hev. now right.
Qed.

(** X3.  Nothing is exported before the weights are in: when a run of
    [main] calls an export, the decoder's [restore_from] has returned, and so
    has the encoder's ([torch.load] and [load_state_dict] on the converted
    checkpoint when [pre_v09_model] is set, [restore_from] otherwise); and no
    checkpoint call follows an export. *)
Theorem main_exports_after_weights (E : env)
    (config_file nn_encoder nn_decoder nn_onnx_encoder nn_onnx_decoder : string)
    (pre_v09_model : bool) (batch_size time_steps : Z) (decoder_type : string) (s : fs) :
  let run := main E config_file nn_encoder nn_decoder nn_onnx_encoder nn_onnx_decoder
               pre_v09_model batch_size time_steps decoder_type s in
  forall m path dummy s',
    DeploymentExport m path dummy s' ∈ trace run ->
    (exists dec, is_decoder dec = true /\ restore_from E dec nn_decoder = Ok tt) /\
    (if pre_v09_model
     then exists ckpt, torch_load E nn_encoder = Ok ckpt /\
                       load_state_dict E (convert ckpt) = Ok tt
     else restore_from E Encoder nn_encoder = Ok tt) /\
    (forall a b, trace run = a ++ DeploymentExport m path dummy s' :: b ->
       Forall (fun ev => reads_checkpoint ev = false) b).
Proof.
  intros run m path dummy s' Hin.
  assert (Hnone : forall tr : list (event fs),
             Forall (fun ev => is_export ev = false) tr ->
             DeploymentExport m path dummy s' ∈ tr -> False).
  { intros tr Htr Hev. rewrite Forall_forall in Htr. apply Htr in Hev. discriminate. }
  destruct (main_unfold E config_file nn_encoder nn_decoder nn_onnx_encoder
              nn_onnx_decoder pre_v09_model batch_size time_steps decoder_type s)
    as [(e & tr1 & Hb & Hrun) |
        (jmd & dp & feat & tr1 & Hb &
         [(e & tr2 & Hd & Hrun) |
          (dec & tr2 & Hd &
           [(e & tr3 & Hl & Hrun) | (tr3 & Hl & Hrun)])])];
    fold run in Hrun; rewrite Hrun in Hin |- *; unfold trace in Hin |- *; simpl in Hin |- *;
    pose proof (before_decoder_events E config_file s) as Hq1;
    rewrite Hb in Hq1; unfold trace in Hq1; simpl in Hq1;
    assert (Hx1 : Forall (fun ev : event fs => is_export ev = false) tr1)
      by (stage_events Hq1).
  - destruct (Hnone _ Hx1 Hin).
  - pose proof (initializing_decoder_events E jmd dp feat decoder_type s) as Hq2.
    rewrite Hd in Hq2. unfold trace in Hq2. simpl in Hq2.
    exfalso. apply (Hnone (tr1 ++ tr2)); [|exact Hin].
    apply Forall_app. split; [exact Hx1|].
    eapply Forall_impl; [exact Hq2|]. now intros ev (? & ? & -> & _).
  - pose proof (initializing_decoder_events E jmd dp feat decoder_type s) as Hq2.
    rewrite Hd in Hq2. unfold trace in Hq2. simpl in Hq2.
    pose proof (loading_checkpoints_events E pre_v09_model nn_encoder nn_decoder dec s)
      as Hq3.
    rewrite Hl in Hq3. unfold trace in Hq3. simpl in Hq3.
    exfalso. apply (Hnone (tr1 ++ tr2 ++ tr3)); [|exact Hin].
    repeat (apply Forall_app; split); [exact Hx1 | |].
    + eapply Forall_impl; [exact Hq2|]. now intros ev (? & ? & -> & _).
    + stage_events Hq3.
  - pose proof (initializing_decoder_events E jmd dp feat decoder_type s) as Hq2.
    rewrite Hd in Hq2. unfold trace in Hq2. simpl in Hq2.
    pose proof (loading_checkpoints_events E pre_v09_model nn_encoder nn_decoder dec s)
      as Hq3.
    rewrite Hl in Hq3. unfold trace in Hq3. simpl in Hq3.
    destruct (initializing_decoder_run E jmd dp feat decoder_type s) as (_ & _ & Hisdec & _).
    rewrite Hd in Hisdec. specialize (Hisdec _ eq_refl).
    destruct (loading_checkpoints_calls E pre_v09_model nn_encoder nn_decoder dec s)
      as (_ & _ & _ & _ & Hloaded).
    rewrite Hl in Hloaded. destruct (Hloaded eq_refl) as [Hdec Henc].
    split; [eauto|]. split; [exact Henc|].
    intros a b Heq.
    assert (Hpre : Forall (fun ev : event fs => is_export ev = false) (tr1 ++ tr2 ++ tr3)).
    { repeat (apply Forall_app; split); [exact Hx1 | |].
      - eapply Forall_impl; [exact Hq2|]. now intros ev (? & ? & -> & _).
      - stage_events Hq3. }
    rewrite !app_assoc in Heq. rewrite <- (app_assoc tr1) in Heq.
    destruct (suffix_after_prefix is_export _ _ a b (DeploymentExport m path dummy s')
                Hpre eq_refl Heq) as (c & Hc).
    pose proof (finishing_events E dec nn_onnx_encoder nn_onnx_decoder batch_size
                  time_steps feat s) as Hfin.
    unfold trace in Hfin. rewrite Hc in Hfin. apply Forall_app in Hfin as [_ Hfin].
    apply Forall_cons in Hfin as [_ Hfin].
    eapply Forall_impl; [exact Hfin|].
    intros ev [Hev|Hev]; destruct ev; simpl in *; congruence.
Qed.

(** X5.  The success message is truthful: a run of [main] that returns has
    logged "Export completed successfully." as its last call, and a run that
    raises has not logged it at all. *)
Theorem main_success_message (E : env)
    (config_file nn_encoder nn_decoder nn_onnx_encoder nn_onnx_decoder : string)
    (pre_v09_model : bool) (batch_size time_steps : Z) (decoder_type : string) (s : fs) :
  let run := main E config_file nn_encoder nn_decoder nn_onnx_encoder nn_onnx_decoder
               pre_v09_model batch_size time_steps decoder_type s in
  (outcome run = Ok tt -> exists tr, trace run = tr ++ [LoggingInfo success_message]) /\
  (is_ok (outcome run) = false ->
   Forall (fun ev => ev <> LoggingInfo success_message) (trace run)).
Proof.
  intros run. split.
  - intros Hok.
    destruct (main_returns_trace E config_file nn_encoder nn_decoder nn_onnx_encoder
                nn_onnx_decoder pre_v09_model batch_size time_steps decoder_type s Hok)
      as (jmd & dp & feat & dec & ? & ? & loads & mk1 & mk2 & de & dd & s4 & s5 &
          _ & _ & _ & _ & _ & _ & _ & _ & _ & Htr & _).
    fold run in Htr. rewrite Htr.
    match goal with
    | |- exists tr, ?A ++ ?B ++ ?C ++ ?D ++ ?F ++ [?a; ?b; ?c; ?d; ?e] = _ =>
        exists (A ++ B ++ C ++ D ++ F ++ [a; b; c; d])
    end.
    rewrite <- !app_assoc. reflexivity.
  - intros Hfail.
    assert (Hearly : forall jmd dp feat dec,
      Forall (fun ev => ev <> LoggingInfo success_message)
        (trace (before_decoder E config_file s)) /\
      Forall (fun ev => ev <> LoggingInfo success_message)
        (trace (initializing_decoder E jmd dp feat decoder_type s)) /\
      Forall (fun ev => ev <> LoggingInfo success_message)
        (trace (loading_checkpoints E pre_v09_model nn_encoder nn_decoder dec s))).
    { intros jmd dp feat dec. repeat split.
      - unfold before_decoder, loading_config_file, determining_model_shape,
          initializing_encoder.
        run_block; repeat constructor; discriminate.
      - eapply Forall_impl; [apply initializing_decoder_events|].
        now intros ev (? & ? & -> & _).
      - unfold loading_checkpoints.
        destruct pre_v09_model; run_block; repeat constructor; discriminate. }
    destruct (main_unfold E config_file nn_encoder nn_decoder nn_onnx_encoder
                nn_onnx_decoder pre_v09_model batch_size time_steps decoder_type s)
      as [(e & tr1 & Hb & Hrun) |
          (jmd & dp & feat & tr1 & Hb &
           [(e & tr2 & Hd & Hrun) |
            (dec & tr2 & Hd &
             [(e & tr3 & Hl & Hrun) | (tr3 & Hl & Hrun)])])];
      fold run in Hrun; rewrite Hrun in Hfail |- *; unfold trace, outcome in *;
      simpl in *.
    + destruct (Hearly YNull YNull YNull Encoder) as (H1 & _). now rewrite Hb in H1.
    + destruct (Hearly jmd dp feat Encoder) as (H1 & H2 & _).
      rewrite Hb in H1. rewrite Hd in H2. apply Forall_app. now split.
    + destruct (Hearly jmd dp feat dec) as (H1 & H2 & H3).
      rewrite Hb in H1. rewrite Hd in H2. rewrite Hl in H3.
      repeat (apply Forall_app; split); assumption.
    + destruct (Hearly jmd dp feat dec) as (H1 & H2 & H3).
      rewrite Hb in H1. rewrite Hd in H2. rewrite Hl in H3.
      repeat (apply Forall_app; split); try assumption.
      destruct (finishing_unfold E dec nn_onnx_encoder nn_onnx_decoder batch_size
                  time_steps feat s)
        as [(e & s4 & mk1 & Hc1 & Hfin) |
            (s4 & mk1 & Hc1 &
             [(e & s5 & mk2 & Hc2 & Hfin) | (s5 & mk2 & Hc2 & Hfin)])];
        rewrite Hfin in Hfail |- *; simpl in *;
        pose proof (create_export_directory_makedirs nn_onnx_encoder s) as Hm1;
        rewrite Hc1 in Hm1; unfold trace in Hm1; simpl in Hm1;
        assert (Hn1 : Forall (fun ev : event fs => ev <> LoggingInfo success_message) mk1)
          by (eapply Forall_impl; [exact Hm1|]; now intros ev [-> _]);
        try exact Hn1;
        pose proof (create_export_directory_makedirs nn_onnx_decoder s4) as Hm2;
        rewrite Hc2 in Hm2; unfold trace in Hm2; simpl in Hm2;
        assert (Hn2 : Forall (fun ev : event fs => ev <> LoggingInfo success_message) mk2)
          by (eapply Forall_impl; [exact Hm2|]; now intros ev [-> _]).
      * apply Forall_app. now split.
      * repeat (apply Forall_app; split); try assumption.
        now apply exporting_stage.
Qed.

Lemma filter_none (P : event fs -> bool) (tr : list (event fs)) :
  Forall (fun ev => P ev = false) tr -> List.filter P tr = [].
Proof.
  induction 1 as [|ev l Hev _ IH]; [reflexivity|]. simpl. now rewrite Hev.
Qed.

Lemma create_export_directory_count (nn_onnx : string) (s : fs) :
  let tr := trace (create_export_directory nn_onnx s) in
  List.filter is_makedirs tr = tr /\ (length tr <= 1)%nat.
Proof.
  destruct (create_export_directory_calls nn_onnx s)
    as [[-> _] | (_ & _ & [(s' & _ & ->) | (e & _ & ->)])];
    unfold trace; simpl; split; (reflexivity || lia).
Qed.

(** After a directory step that returned, the step for a path with the same
    directory part makes no call. *)
Lemma create_export_directory_again (p p' : string) (s s' : fs)
    (mk : list (event fs)) :
  create_export_directory p s = (Ok tt, s', mk) ->
  (os_path_split p').1 = (os_path_split p).1 ->
  trace (create_export_directory p' s') = [].
Proof.
  intros Hrun Hsame.
  assert (Hthere : (os_path_split p).1 = "" \/
                   os_path_exists s' (os_path_split p).1 = true).
  { destruct (create_export_directory_run p s) as (_ & _ & Hex & _).
    rewrite Hrun in Hex. now apply Hex. }
  destruct (create_export_directory_calls p' s')
    as [[-> _] | (Hne & Habs & _)]; [reflexivity|].
  rewrite Hsame in Hne, Habs. destruct Hthere; congruence.
Qed.

Lemma finishing_makedirs (E : env) (dec : module)
    (nn_onnx_encoder nn_onnx_decoder : string) (batch_size time_steps : Z)
    (feat : yaml) (s : fs) :
  let fin := finishing E dec nn_onnx_encoder nn_onnx_decoder batch_size time_steps feat s in
  let base_e := (os_path_split nn_onnx_encoder).1 in
  let base_d := (os_path_split nn_onnx_decoder).1 in
  (length (List.filter is_makedirs (trace fin)) <= 2)%nat /\
  (base_e = base_d -> (length (List.filter is_makedirs (trace fin)) <= 1)%nat).
Proof.
  intros fin base_e base_d.
  assert (Hex : forall s', List.filter is_makedirs
            (trace (exporting E dec nn_onnx_encoder nn_onnx_decoder batch_size
                      time_steps feat s')) = []).
  { intros s'. apply filter_none. stage_events exporting_events. }
  destruct (create_export_directory_count nn_onnx_encoder s) as [Hf1 Hn1].
  destruct (finishing_unfold E dec nn_onnx_encoder nn_onnx_decoder batch_size
              time_steps feat s)
    as [(e & s4 & mk1 & Hc1 & Hfin) |
        (s4 & mk1 & Hc1 &
         [(e & s5 & mk2 & Hc2 & Hfin) | (s5 & mk2 & Hc2 & Hfin)])];
    fold fin in Hfin; rewrite Hfin; rewrite Hc1 in Hf1, Hn1;
    unfold trace in *; simpl in *.
  - rewrite Hf1. split; intros; lia.
  - destruct (create_export_directory_count nn_onnx_decoder s4) as [Hf2 Hn2].
    pose proof (create_export_directory_again nn_onnx_encoder nn_onnx_decoder s s4 mk1 Hc1)
      as Hagain.
    rewrite Hc2 in Hf2, Hn2, Hagain. unfold trace in *. simpl in *.
    rewrite List.filter_app, Hf1, Hf2, length_app. split; [lia|].
    intros Hsame. rewrite Hagain by (symmetry; exact Hsame). simpl. lia.
  - destruct (create_export_directory_count nn_onnx_decoder s4) as [Hf2 Hn2].
    pose proof (create_export_directory_again nn_onnx_encoder nn_onnx_decoder s s4 mk1 Hc1)
      as Hagain.
    rewrite Hc2 in Hf2, Hn2, Hagain. unfold trace in *. simpl in *.
    specialize (Hex s5). unfold trace in Hex.
    rewrite !List.filter_app, Hf1, Hf2, Hex, !length_app. simpl. split; [lia|].
    intros Hsame. rewrite Hagain by (symmetry; exact Hsame). simpl. lia.
Qed.

(** X6.  The calls of [os.makedirs] in a run of [main]: each is on the
    directory part of one of the two output paths, which is not empty; there
    are at most two, and at most one when the two output paths have the same
    directory part. *)
Theorem main_makedirs_calls (E : env)
    (config_file nn_encoder nn_decoder nn_onnx_encoder nn_onnx_decoder : string)
    (pre_v09_model : bool) (batch_size time_steps : Z) (decoder_type : string) (s : fs) :
  let run := main E config_file nn_encoder nn_decoder nn_onnx_encoder nn_onnx_decoder
               pre_v09_model batch_size time_steps decoder_type s in
  let base_e := (os_path_split nn_onnx_encoder).1 in
  let base_d := (os_path_split nn_onnx_decoder).1 in
  (forall d, Makedirs d ∈ trace run -> d <> "" /\ (d = base_e \/ d = base_d)) /\
  (length (List.filter is_makedirs (trace run)) <= 2)%nat /\
  (base_e = base_d -> (length (List.filter is_makedirs (trace run)) <= 1)%nat).
Proof.
  intros run base_e base_d. split.
  - set (P := fun ev : event fs =>
      match ev with
      | Makedirs d => d <> "" /\ (d = base_e \/ d = base_d)
      | _ => True
      end).
    assert (HP : Forall P (trace run)).
    { apply main_trace_Forall.
      - stage_events before_decoder_events.
      - intros jmd dp feat _.
        eapply Forall_impl; [apply initializing_decoder_events|].
        now intros ev (? & ? & -> & _).
      - intros jmd dp feat dec _ _. stage_events loading_checkpoints_events.
      - intros jmd dp feat dec _ _ _. apply finishing_trace_Forall; intros s'.
        + eapply Forall_impl; [apply create_export_directory_makedirs|].
          intros ev [-> ?]. simpl. auto.
        + eapply Forall_impl; [apply create_export_directory_makedirs|].
          intros ev [-> ?]. simpl. auto.
        + stage_events exporting_events. }
    rewrite Forall_forall in HP. intros d Hin. exact (HP _ Hin).
  - assert (Hearly : forall jmd dp feat dec,
      List.filter is_makedirs (trace (before_decoder E config_file s)) = [] /\
      List.filter is_makedirs
        (trace (initializing_decoder E jmd dp feat decoder_type s)) = [] /\
      List.filter is_makedirs
        (trace (loading_checkpoints E pre_v09_model nn_encoder nn_decoder dec s)) = []).
    { intros jmd dp feat dec. repeat split; apply filter_none.
      - stage_events before_decoder_events.
      - eapply Forall_impl; [apply initializing_decoder_events|].
        now intros ev (? & ? & -> & _).
      - stage_events loading_checkpoints_events. }
    destruct (main_unfold E config_file nn_encoder nn_decoder nn_onnx_encoder
                nn_onnx_decoder pre_v09_model batch_size time_steps decoder_type s)
      as [(e & tr1 & Hb & Hrun) |
          (jmd & dp & feat & tr1 & Hb &
           [(e & tr2 & Hd & Hrun) |
            (dec & tr2 & Hd &
             [(e & tr3 & Hl & Hrun) | (tr3 & Hl & Hrun)])])];
      fold run in Hrun; rewrite Hrun; unfold trace; simpl.
    + destruct (Hearly YNull YNull YNull Encoder) as (H1 & _). rewrite Hb in H1.
      unfold trace in H1. simpl in H1. rewrite H1. simpl. split; intros; lia.
    + destruct (Hearly jmd dp feat Encoder) as (H1 & H2 & _).
      rewrite Hb in H1. rewrite Hd in H2. unfold trace in H1, H2. simpl in H1, H2.
      rewrite List.filter_app, H1, H2. simpl. split; intros; lia.
    + destruct (Hearly jmd dp feat dec) as (H1 & H2 & H3).
      rewrite Hb in H1. rewrite Hd in H2. rewrite Hl in H3.
      unfold trace in H1, H2, H3. simpl in H1, H2, H3.
      rewrite !List.filter_app, H1, H2, H3. simpl. split; intros; lia.
    + destruct (Hearly jmd dp feat dec) as (H1 & H2 & H3).
      rewrite Hb in H1. rewrite Hd in H2. rewrite Hl in H3.
      unfold trace in H1, H2, H3. simpl in H1, H2, H3.
      rewrite !List.filter_app, H1, H2, H3. simpl.
      apply (finishing_makedirs E dec nn_onnx_encoder nn_onnx_decoder batch_size
               time_steps feat s).
Qed.

(** X7.  What is built, and from what.  In every run of [main] a
    constructor call is one of: the encoder, with the mapping found in the
    configuration under [init_params.encoder_params.init_params] as keyword
    arguments; the CTC decoder, when [decoder_type] is ['ctc'], with
    [feat_in], [num_classes] and [vocabulary] of the decoder parameters; the
    classification decoder, when [decoder_type] is ['classification'], with
    [feat_in] and, as [num_classes], the length of the top-level [labels]. *)
Theorem main_constructions (E : env)
    (config_file nn_encoder nn_decoder nn_onnx_encoder nn_onnx_decoder : string)
    (pre_v09_model : bool) (batch_size time_steps : Z) (decoder_type : string) (s : fs) :
  let run := main E config_file nn_encoder nn_decoder nn_onnx_encoder nn_onnx_decoder
               pre_v09_model batch_size time_steps decoder_type s in
  forall m kwargs, Construct m kwargs ∈ trace run ->
    exists jmd, yaml_load E config_file = Ok jmd /\
      ((m = Encoder /\ encoder_kwargs_of jmd = Ok kwargs)
       \/
       exists dp feat,
         decoder_params_of jmd = Ok dp /\ getitem dp "feat_in" = Ok feat /\
         ((m = DecoderForCTC /\ decoder_type = "ctc" /\
           exists num_classes vocabulary,
             getitem dp "num_classes" = Ok num_classes /\
             getitem dp "vocabulary" = Ok vocabulary /\
             kwargs = [("feat_in", feat); ("num_classes", num_classes);
                       ("vocabulary", vocabulary)])
          \/
          (m = DecoderForClassification /\ decoder_type = "classification" /\
           exists labels n,
             getitem jmd "labels" = Ok labels /\ py_len labels = Ok n /\
             kwargs = [("feat_in", feat); ("num_classes", YInt n)]))).
Proof.
  intros run.
  set (P := fun ev : event fs =>
    match ev with
    | Construct m kwargs =>
        exists jmd, yaml_load E config_file = Ok jmd /\
          ((m = Encoder /\ encoder_kwargs_of jmd = Ok kwargs)
           \/
           exists dp feat,
             decoder_params_of jmd = Ok dp /\ getitem dp "feat_in" = Ok feat /\
             ((m = DecoderForCTC /\ decoder_type = "ctc" /\
               exists num_classes vocabulary,
                 getitem dp "num_classes" = Ok num_classes /\
                 getitem dp "vocabulary" = Ok vocabulary /\
                 kwargs = [("feat_in", feat); ("num_classes", num_classes);
                           ("vocabulary", vocabulary)])
              \/
              (m = DecoderForClassification /\ decoder_type = "classification" /\
               exists labels n,
                 getitem jmd "labels" = Ok labels /\ py_len labels = Ok n /\
                 kwargs = [("feat_in", feat); ("num_classes", YInt n)])))
    | _ => True
    end).
  assert (HP : Forall P (trace run)).
  { apply main_trace_Forall.
    - apply Forall_forall. intros [] Hin; simpl; auto.
      destruct (before_decoder_calls E config_file s) as (Hc & _).
      destruct (Hc _ _ Hin) as (-> & jmd & Hy & Hkw). eauto.
    - intros jmd dp feat Hb.
      destruct (before_decoder_run E config_file s) as (_ & _ & Hcfg).
      destruct (Hcfg _ _ _ Hb) as (Hy & Hdp & Hfeat & _).
      apply Forall_forall. intros [] Hin; simpl; auto.
      destruct (initializing_decoder_calls E jmd dp feat decoder_type s)
        as (_ & _ & Hk & _).
      exists jmd. split; [exact Hy|]. right. exists dp, feat.
      split; [exact Hdp|]. split; [exact Hfeat|].
      destruct (Hk _ _ Hin)
        as [(-> & -> & nc & voc & ? & ? & ->) | (-> & -> & labels & n & _ & ? & ? & ->)];
        [left | right]; eauto 10.
    - intros jmd dp feat dec _ _. stage_events loading_checkpoints_events.
    - intros jmd dp feat dec _ _ _.
      eapply Forall_impl; [apply finishing_events|].
      intros ev [Hev|Hev]; destruct ev; simpl in *; congruence || exact I. }
  rewrite Forall_forall in HP. intros m kwargs Hin. exact (HP _ Hin).
Qed.

(** X8.  A configuration that cannot be read, or in which the decoder
    parameters or their [feat_in] are missing, stops [main] with the
    exception of that step before anything is built: the calls made are
    logging calls and the reading of the configuration, so no factory, no
    module, no checkpoint and no directory. *)
Theorem main_configuration_errors (E : env)
    (config_file nn_encoder nn_decoder nn_onnx_encoder nn_onnx_decoder : string)
    (pre_v09_model : bool) (batch_size time_steps : Z) (decoder_type : string) (s : fs)
    (e : exn) :
  (jmd ← yaml_load E config_file;
   dp ← decoder_params_of jmd;
   getitem dp "feat_in") = Raise e ->
  let run := main E config_file nn_encoder nn_decoder nn_onnx_encoder nn_onnx_decoder
               pre_v09_model batch_size time_steps decoder_type s in
  outcome run = Raise e /\
  Forall (fun ev => reads_config ev = true) (trace run) /\
  final run = s.
Proof.
  intros Hcfg run.
  destruct (before_decoder_calls E config_file s) as (_ & _ & Herr).
  destruct (Herr e Hcfg) as [Hout Hevents].
  destruct (main_unfold E config_file nn_encoder nn_decoder nn_onnx_encoder
              nn_onnx_decoder pre_v09_model batch_size time_steps decoder_type s)
    as [(e' & tr1 & Hb & Hrun) | (jmd & dp & feat & tr1 & Hb & _)];
    rewrite Hb in Hout, Hevents; unfold outcome, trace in Hout, Hevents;
    simpl in Hout, Hevents; [|discriminate].
  fold run in Hrun. rewrite Hrun. injection Hout as ->. now repeat split.
Qed.

(** X9.  The dummy inputs are sound tensors: in every run of [main], an
    export is only called with [batch_size] and [time_steps] that are not
    negative, and its dummy input has as many entries as its shape says, all
    of them zero.  A negative size stops the run before the export. *)
Theorem main_dummy_tensors (E : env)
    (config_file nn_encoder nn_decoder nn_onnx_encoder nn_onnx_decoder : string)
    (pre_v09_model : bool) (batch_size time_steps : Z) (decoder_type : string) (s : fs) :
  let run := main E config_file nn_encoder nn_decoder nn_onnx_encoder nn_onnx_decoder
               pre_v09_model batch_size time_steps decoder_type s in
  forall m path dummy s',
    DeploymentExport m path dummy s' ∈ trace run ->
    (0 <= batch_size)%Z /\ (0 <= time_steps)%Z /\
    well_formed dummy /\
    Forall (fun x => x = 0%Q) (data dummy) /\
    rank dummy = 3%nat.
Proof.
  intros run m path dummy s' Hin.
  destruct (main_reaches_export E config_file nn_encoder nn_decoder nn_onnx_encoder
              nn_onnx_decoder pre_v09_model batch_size time_steps decoder_type s)
    as [[Hnone Hfail] | (jmd & dp & feat & dec & pre & mk1 & mk2 & s4 & s5 &
         Hy & Hdp & Hfeat & Hdec & Hpre & Hmk1 & Hmk2 & Htr & Hout)];
    fold run in Hnone, Hfail || fold run in Htr, Hout.
  { rewrite Forall_forall in Hnone. apply Hnone in Hin. discriminate. }
  pose proof (create_export_directory_makedirs nn_onnx_encoder s) as Hq1.
  pose proof (create_export_directory_makedirs nn_onnx_decoder s4) as Hq2.
  rewrite Hmk1 in Hq1. rewrite Hmk2 in Hq2. unfold trace in Hq1, Hq2. simpl in Hq1, Hq2.
  assert (Hex : DeploymentExport m path dummy s'
                ∈ trace (exporting E dec nn_onnx_encoder nn_onnx_decoder batch_size
                           time_steps feat s5)).
  { rewrite Htr in Hin.
    repeat (apply elem_of_app in Hin as [Hin|Hin]); [| | |exact Hin]; exfalso.
    - rewrite Forall_forall in Hpre. apply Hpre in Hin. discriminate.
    - rewrite Forall_forall in Hq1. now apply Hq1 in Hin as [? _].
    - rewrite Forall_forall in Hq2. now apply Hq2 in Hin as [? _]. }
  destruct (exporting_run E dec nn_onnx_encoder nn_onnx_decoder batch_size time_steps
              feat s5) as [Hevents _].
  destruct (Hevents _ _ _ _ Hex) as [(_ & _ & _ & Hz) | (_ & _ & _ & f & _ & Hz)];
    apply zeros_inv in Hz as (Hdims & Hshape & Hwf & Hzero);
    apply Forall_cons in Hdims as [Hb Hdims];
    apply Forall_cons in Hdims as [_ Hdims];
    apply Forall_cons in Hdims as [Ht _].
  - repeat split; try assumption. unfold rank. now rewrite Hshape.
  - assert (0 <= time_steps)%Z
      by (destruct (Z.le_gt_cases 0 time_steps) as [|Hneg]; [assumption|];
          pose proof (Z.div_lt_upper_bound time_steps 2 0); lia).
    repeat split; try assumption. unfold rank. now rewrite Hshape.
Qed.

End MainFacts.

(** ** Runs in a concrete world *)

Section Runs.

Import PyStr Torch export_jasper_to_onnx.

(** C2 as stated does not hold: with a configuration document that has no
    [init_params] entry, line 62 raises [KeyError] before the decoder kind
    is looked at, and no [ValueError] is raised. *)
Lemma C2_config_without_init_params :
  "transducer" <> "ctc" /\ "transducer" <> "classification" /\
  outcome (main (fs := gset string) (answering (YMap []))
             "config.yaml" "encoder.pt" "decoder.pt" "out/encoder.onnx" "out/decoder.onnx"
             false 1 256 "transducer" ∅)
  = Raise (KeyError "init_params").
Proof. repeat split; discriminate. Qed.

Lemma C2_decoder_type_validation_witness :
  let run := main (fs := gset string) (answering ctc_config)
               "config.yaml" "encoder.pt" "decoder.pt" "out/encoder.onnx" "out/decoder.onnx"
               false 1 256 "transducer" ∅ in
  Forall (fun ev => reads_checkpoint ev = false) (trace run) /\
  is_ok (outcome run) = false /\
  outcome run
  = Raise (ValueError "`decoder_type` must be one of ['ctc', 'classification']").
Proof.
  intros run.
  pose proof (C2_decoder_type_validation (answering ctc_config)
                "config.yaml" "encoder.pt" "decoder.pt" "out/encoder.onnx" "out/decoder.onnx"
                false 1 256 "transducer" (∅ : gset string)
                ltac:(discriminate) ltac:(discriminate))
    as (Hquiet & Hfails & Herror).
  split; [exact Hquiet | split; [exact Hfails | apply Herror; reflexivity]].
Defined.

(** C3 as stated does not hold: the [ValueError] for the missing [labels]
    is raised at line 82, after the encoder was built at line 70. *)
Lemma C3_encoder_built_before_error :
  let run := main (fs := gset string) (answering ctc_config)
               "config.yaml" "encoder.pt" "decoder.pt" "out/encoder.onnx" "out/decoder.onnx"
               false 1 256 "classification" ∅ in
  py_in "labels" ctc_config = Ok false /\
  outcome run = Raise (ValueError
    "List of class labels must be defined in model config file with key 'labels'") /\
  List.filter constructs_model (trace run)
  = [Construct Encoder [("feat_in", YInt 64)]].
Proof. repeat split. Qed.

Lemma C3_classification_without_labels_witness :
  let run := main (fs := gset string) (answering ctc_config)
               "config.yaml" "encoder.pt" "decoder.pt" "out/encoder.onnx" "out/decoder.onnx"
               true 1 256 "classification" ∅ in
  Forall (fun ev => constructs_decoder ev = false /\ reads_checkpoint ev = false)
    (trace run) /\
  outcome run = Raise (ValueError
    "List of class labels must be defined in model config file with key 'labels'").
Proof.
  intros run.
  pose proof (C3_classification_without_labels (answering ctc_config)
                "config.yaml" "encoder.pt" "decoder.pt" "out/encoder.onnx" "out/decoder.onnx"
                true 1 256 (∅ : gset string) ctc_config eq_refl eq_refl)
    as (Hquiet & _ & Herror).
  split; [exact Hquiet | apply (proj1 (Herror eq_refl))].
Defined.

Lemma C6_dummy_inputs_witness :
  let run := main (fs := gset string) (answering flag_config)
               "config.yaml" "encoder.pt" "decoder.pt" "out/encoder.onnx" "out/decoder.onnx"
               false 1 2 "ctc" ∅ in
  outcome run = Ok tt /\
  exists m dummy s',
    DeploymentExport m "out/decoder.onnx" dummy s' ∈ trace run /\
    data dummy = [0%Q] /\
    shape dummy = [1; 1; 1]%nat.
Proof.
  intros run.
  assert (Hok : outcome run = Ok tt) by (vm_compute; reflexivity).
  split; [exact Hok|].
  destruct (C6_dummy_inputs (answering flag_config)
              "config.yaml" "encoder.pt" "decoder.pt" "out/encoder.onnx" "out/decoder.onnx"
              false 1 2 "ctc" (∅ : gset string)) as [Hdummy Hboth].
  destruct (Hboth Hok) as (m & dummy_e & dummy_d & s_e & s_d & Hexports).
  assert (Hin : DeploymentExport m "out/decoder.onnx" dummy_d s_d ∈ trace run).
  { apply list_elem_of_In. eapply (proj1 (List.filter_In is_export _ _)).
    fold run in Hexports. rewrite Hexports. right. now left. }
  exists m, dummy_d, s_d. split; [exact Hin|].
  destruct (Hdummy _ _ _ _ Hin)
    as (Hwf & Hzero &
        [(_ & Hpath & _) | (_ & _ & jmd & dp & feat & feat_in & Hy & Hdp & Hfeat & Hint & Hsh)]);
    [discriminate Hpath|].
  injection Hy as <-. injection Hdp as <-. injection Hfeat as <-.
  destruct Hint as [[=] | (b & [= <-] & ->)].
  destruct dummy_d as [sh d]. simpl in *.
  destruct sh as [|n1 [|n2 [|n3 [|? ?]]]]; try discriminate Hsh.
  injection Hsh as H1 H2 H3. change (2 / 2)%Z with 1%Z in H3.
  assert (n1 = 1 /\ n2 = 1 /\ n3 = 1)%nat as (-> & -> & ->) by lia.
  split; [|reflexivity].
  unfold well_formed in Hwf. simpl in Hwf.
  destruct d as [|x [|? ?]]; try discriminate Hwf.
  apply Forall_cons in Hzero as [-> _]. reflexivity.
Defined.

(** C7 as stated does not hold: with a regular file at the directory part
    of the encoder's output path, [os.path.exists] answers true, no
    directory is made, and the export is called although its parent
    directory does not exist. *)
Lemma C7_file_at_parent :
  let world : gmap string kind := {["out" := RegularFile]} in
  let run := main (export_refused ctc_config)
               "config.yaml" "encoder.pt" "decoder.pt" "out/encoder.onnx" "out/decoder.onnx"
               false 1 2 "ctc" world in
  (os_path_split "out/encoder.onnx").1 = "out" /\
  kinds_isdir world "out" = false /\
  Forall (fun ev => is_makedirs ev = false) (trace run) /\
  exists dummy s',
    DeploymentExport Encoder "out/encoder.onnx" dummy s' ∈ trace run /\
    kinds_isdir s' "out" = false.
Proof.
  intros world run. split; [reflexivity|]. split; [reflexivity|].
  assert (Htrace : trace run
    = [LoggingInfo "Loading config file..."; OpenConfig "config.yaml";
       LoggingInfo "Determining model shape...";
       LoggingInfoFormat "  Num encoder input features: {}" (YInt 64);
       LoggingInfoFormat "  Num decoder input features: {}" (YInt 4);
       NeuralModuleFactory; LoggingInfo "Initializing models...";
       Construct Encoder [("feat_in", YInt 64)];
       Construct DecoderForCTC [("feat_in", YInt 4); ("num_classes", YInt 28);
                                ("vocabulary", YSeq [YStr "a"; YStr "b"])];
       LoggingInfo "Loading checkpoints...";
       RestoreFrom Encoder "encoder.pt"; RestoreFrom DecoderForCTC "decoder.pt";
       LoggingInfo "Exporting encoder...";
       DeploymentExport Encoder "out/encoder.onnx"
         (Tensor [1; 64; 2]%nat (repeat 0%Q 128)) world]) by reflexivity.
  rewrite Htrace. split; [repeat constructor|].
  eexists _, world. split; [|reflexivity].
  do 13 apply list_elem_of_further. apply list_elem_of_here.
Qed.

Lemma C7_export_directories_witness :
  let run := main (fs := gset string) (answering ctc_config)
               "config.yaml" "encoder.pt" "decoder.pt" "out/encoder.onnx" "out/decoder.onnx"
               false 1 2 "ctc" ∅ in
  exists dummy s',
    DeploymentExport Encoder "out/encoder.onnx" dummy s' ∈ trace run /\
    os_path_exists s' "out" = true /\
    exists tr1 tr2,
      trace run = tr1 ++ Makedirs "out" :: tr2 /\
      DeploymentExport Encoder "out/encoder.onnx" dummy s' ∈ tr2.
Proof.
  intros run.
  assert (Hin : exists dummy s',
             DeploymentExport Encoder "out/encoder.onnx" dummy s' ∈ trace run).
  { destruct (main_returns_exports (answering ctc_config)
                "config.yaml" "encoder.pt" "decoder.pt" "out/encoder.onnx"
                "out/decoder.onnx" false 1 2 "ctc" (∅ : gset string))
      as (m & dummy_e & dummy_d & s_e & s_d & Hexports); [vm_compute; reflexivity|].
    exists dummy_e, s_e. apply list_elem_of_In.
    eapply (proj1 (List.filter_In is_export _ _)).
    fold run in Hexports. rewrite Hexports. now left. }
  destruct Hin as (dummy & s' & Hin). exists dummy, s'. split; [exact Hin|].
  destruct (C7_export_directories (answering ctc_config)
              "config.yaml" "encoder.pt" "decoder.pt" "out/encoder.onnx" "out/decoder.onnx"
              false 1 2 "ctc" (∅ : gset string) _ _ _ _ Hin) as [Hthere Hmade].
  split.
  - destruct Hthere as [Hempty|Hthere]; [discriminate Hempty | exact Hthere].
  - apply Hmade; [discriminate | reflexivity].
Defined.

(** ** Runs that return, and runs stopped by the configuration *)

(** Finds a call in a trace written with [::] and [++]. *)
Ltac in_trace :=
  lazymatch goal with
  | |- _ ∈ _ ++ _ => apply elem_of_app; first [left; in_trace | right; in_trace]
  | |- _ ∈ _ :: _ =>
      first [apply list_elem_of_here | apply list_elem_of_further; in_trace]
  end.

Lemma legacy_run_returns :
  outcome (main (fs := gset string) (answering ctc_config)
             "config.yaml" "encoder.pt" "decoder.pt" "out/encoder.onnx" "out/decoder.onnx"
             true 1 2 "ctc" ∅) = Ok tt.
Proof. vm_compute. reflexivity. Qed.

Lemma main_returns_calls_witness :
  let run := main (fs := gset string) (answering ctc_config)
               "config.yaml" "encoder.pt" "decoder.pt" "out/encoder.onnx" "out/decoder.onnx"
               true 1 2 "ctc" ∅ in
  exists dec, is_decoder dec = true /\ RestoreFrom dec "decoder.pt" ∈ trace run.
Proof.
  intros run.
  destruct (main_returns_calls (answering ctc_config)
              "config.yaml" "encoder.pt" "decoder.pt" "out/encoder.onnx" "out/decoder.onnx"
              true 1 2 "ctc" (∅ : gset string) legacy_run_returns)
    as (jmd & dp & feat & dec & ? & ? & loads & mk1 & mk2 & de & dd & s4 & s5 &
        _ & _ & _ & _ & Hdec & _ & _ & _ & _ & Htr & _).
  exists dec. split; [exact Hdec|]. fold run in Htr. rewrite Htr. in_trace.
Defined.

Lemma main_checkpoint_calls_witness :
  let run := main (fs := gset string) (answering ctc_config)
               "config.yaml" "encoder.pt" "decoder.pt" "out/encoder.onnx" "out/decoder.onnx"
               true 1 2 "ctc" ∅ in
  TorchLoad "encoder.pt" ∈ trace run /\
  exists ckpt, torch_load (answering ctc_config) "encoder.pt" = Ok ckpt /\
               LoadStateDict (convert ckpt) ∈ trace run.
Proof.
  intros run.
  destruct (main_returns_trace (answering ctc_config)
              "config.yaml" "encoder.pt" "decoder.pt" "out/encoder.onnx" "out/decoder.onnx"
              true 1 2 "ctc" (∅ : gset string) legacy_run_returns)
    as (jmd & dp & feat & dec & ? & ? & loads & mk1 & mk2 & de & dd & s4 & s5 &
        _ & _ & _ & _ & _ & Hloads & _ & _ & _ & Htr & _).
  destruct (Hloads eq_refl) as (ckpt & _ & ->). fold run in Htr.
  assert (Hload : TorchLoad "encoder.pt" ∈ trace run) by (rewrite Htr; in_trace).
  assert (Hstate : LoadStateDict (convert ckpt) ∈ trace run) by (rewrite Htr; in_trace).
  pose proof (main_checkpoint_calls (answering ctc_config)
                "config.yaml" "encoder.pt" "decoder.pt" "out/encoder.onnx" "out/decoder.onnx"
                true 1 2 "ctc" (∅ : gset string)) as (_ & Hconv & _).
  split; [exact Hload|].
  destruct (Hconv _ Hstate) as (_ & ckpt' & Hread & Heq).
  exists ckpt'. split; [exact Hread|]. rewrite <- Heq. exact Hstate.
Defined.

Lemma main_exports_after_weights_witness :
  restore_from (answering ctc_config) DecoderForCTC "decoder.pt" = Ok tt /\
  exists ckpt, torch_load (answering ctc_config) "encoder.pt" = Ok ckpt /\
               load_state_dict (answering ctc_config) (convert ckpt) = Ok tt.
Proof.
  destruct (main_returns_trace (answering ctc_config)
              "config.yaml" "encoder.pt" "decoder.pt" "out/encoder.onnx" "out/decoder.onnx"
              true 1 2 "ctc" (∅ : gset string) legacy_run_returns)
    as (jmd & dp & feat & dec & ? & ? & loads & mk1 & mk2 & de & dd & s4 & s5 &
        _ & _ & _ & _ & _ & _ & _ & _ & _ & Htr & _).
  assert (Hin : DeploymentExport Encoder "out/encoder.onnx" de s5
                ∈ trace (main (fs := gset string) (answering ctc_config)
                           "config.yaml" "encoder.pt" "decoder.pt" "out/encoder.onnx"
                           "out/decoder.onnx" true 1 2 "ctc" ∅))
    by (rewrite Htr; in_trace).
  destruct (main_exports_after_weights (answering ctc_config)
              "config.yaml" "encoder.pt" "decoder.pt" "out/encoder.onnx" "out/decoder.onnx"
              true 1 2 "ctc" (∅ : gset string) _ _ _ _ Hin) as (_ & Henc & _).
  split; [reflexivity | exact Henc].
Defined.

Lemma main_success_message_witness :
  let run := main (fs := gset string) (answering ctc_config)
               "config.yaml" "encoder.pt" "decoder.pt" "out/encoder.onnx" "out/decoder.onnx"
               true 1 2 "ctc" ∅ in
  exists tr, trace run = tr ++ [LoggingInfo success_message].
Proof.
  intros run.
  apply (proj1 (main_success_message (answering ctc_config)
                  "config.yaml" "encoder.pt" "decoder.pt" "out/encoder.onnx"
                  "out/decoder.onnx" true 1 2 "ctc" (∅ : gset string))).
  exact legacy_run_returns.
Defined.

Lemma main_makedirs_calls_witness :
  let run := main (fs := gset string) (answering ctc_config)
               "config.yaml" "encoder.pt" "decoder.pt" "out/encoder.onnx" "out/decoder.onnx"
               true 1 2 "ctc" ∅ in
  (length (List.filter is_makedirs (trace run)) <= 1)%nat.
Proof.
  intros run.
  apply (proj2 (proj2 (main_makedirs_calls (answering ctc_config)
                  "config.yaml" "encoder.pt" "decoder.pt" "out/encoder.onnx"
                  "out/decoder.onnx" true 1 2 "ctc" (∅ : gset string)))).
  vm_compute. reflexivity.
Defined.

Lemma main_constructions_witness :
  let run := main (fs := gset string) (answering ctc_config)
               "config.yaml" "encoder.pt" "decoder.pt" "out/encoder.onnx" "out/decoder.onnx"
               true 1 2 "ctc" ∅ in
  exists kwargs, Construct Encoder kwargs ∈ trace run /\
                 encoder_kwargs_of ctc_config = Ok kwargs.
Proof.
  intros run.
  destruct (main_returns_trace (answering ctc_config)
              "config.yaml" "encoder.pt" "decoder.pt" "out/encoder.onnx" "out/decoder.onnx"
              true 1 2 "ctc" (∅ : gset string) legacy_run_returns)
    as (jmd & dp & feat & dec & enc_kwargs & ? & loads & mk1 & mk2 & de & dd & s4 & s5 &
        _ & _ & _ & _ & _ & _ & _ & _ & _ & Htr & _).
  fold run in Htr.
  assert (Hin : Construct Encoder enc_kwargs ∈ trace run) by (rewrite Htr; in_trace).
  destruct (main_constructions (answering ctc_config)
              "config.yaml" "encoder.pt" "decoder.pt" "out/encoder.onnx" "out/decoder.onnx"
              true 1 2 "ctc" (∅ : gset string) _ _ Hin)
    as (jmd' & Hy & [(_ & Hkw) | (dp' & feat' & _ & _ & [(Hm & _) | (Hm & _)])]);
    try discriminate Hm.
  injection Hy as <-. exists enc_kwargs. split; assumption.
Defined.

Lemma main_configuration_errors_witness :
  let run := main (fs := gset string) (answering (YMap []))
               "config.yaml" "encoder.pt" "decoder.pt" "out/encoder.onnx" "out/decoder.onnx"
               false 1 256 "ctc" ∅ in
  outcome run = Raise (KeyError "init_params") /\
  Forall (fun ev => reads_config ev = true) (trace run) /\
  final run = ∅.
Proof.
  intros run.
  apply (main_configuration_errors (answering (YMap []))
           "config.yaml" "encoder.pt" "decoder.pt" "out/encoder.onnx" "out/decoder.onnx"
           false 1 256 "ctc" (∅ : gset string)).
  reflexivity.
Defined.

Lemma main_dummy_tensors_witness :
  let run := main (fs := gset string) (answering ctc_config)
               "config.yaml" "encoder.pt" "decoder.pt" "out/encoder.onnx" "out/decoder.onnx"
               true 1 2 "ctc" ∅ in
  exists dummy s', DeploymentExport Encoder "out/encoder.onnx" dummy s' ∈ trace run /\
                   well_formed dummy /\ rank dummy = 3%nat.
Proof.
  intros run.
  destruct (main_returns_trace (answering ctc_config)
              "config.yaml" "encoder.pt" "decoder.pt" "out/encoder.onnx" "out/decoder.onnx"
              true 1 2 "ctc" (∅ : gset string) legacy_run_returns)
    as (jmd & dp & feat & dec & ? & ? & loads & mk1 & mk2 & de & dd & s4 & s5 &
        _ & _ & _ & _ & _ & _ & _ & _ & _ & Htr & _).
  fold run in Htr.
  assert (Hin : DeploymentExport Encoder "out/encoder.onnx" de s5 ∈ trace run)
    by (rewrite Htr; in_trace).
  destruct (main_dummy_tensors (answering ctc_config)
              "config.yaml" "encoder.pt" "decoder.pt" "out/encoder.onnx" "out/decoder.onnx"
              true 1 2 "ctc" (∅ : gset string) _ _ _ _ Hin) as (_ & _ & Hwf & _ & Hrank).
  exists de, s5. repeat split; assumption.
Defined.

End Runs.

(* ===================================================================== *)
(** * The loss module                                                     *)
(* ===================================================================== *)

Section Loss.

Import Torch NLLLoss.

(** C8 as stated does not hold: the result can equal
    [criterion(predictions, targets)] with [targets] supplied first.  For
    two integer tensors, of the same shape but different, both orders end in
    the same exception. *)
Lemma C8_same_result_both_orders :
  let predictions := LongTensor (Tensor [1]%nat [0%Z]) in
  let targets := LongTensor (Tensor [1]%nat [1%Z]) in
  predictions <> targets /\
  _loss_function __init__ [("targets", targets); ("predictions", predictions)]
  = _criterion __init__ [predictions; targets].
Proof. split; [discriminate | reflexivity]. Qed.

(** C8 (amended).  [_loss_function] hands the values of its keyword
    arguments to the criterion in the order they were written, whatever
    their names: two calls whose values agree in order give the same result,
    and with two arguments the result is the criterion on the first value
    and the second.  For the criterion [__init__] installs, floating
    predictions and integer targets: written predictions first the result is
    the loss of the two, written targets first the operands are swapped and
    the call raises, so that the two results differ whenever the loss is
    defined. *)
Theorem C8_values_in_call_order :
  (forall (self : NLLLoss.t) (kw kw' : kwargs),
     map snd kw = map snd kw' -> _loss_function self kw = _loss_function self kw') /\
  (forall (self : NLLLoss.t) (n1 n2 : string) (a b : value),
     _loss_function self [(n1, a); (n2, b)] = _criterion self [a; b]) /\
  (forall (predictions : tensor Q) (targets : tensor Z),
     let first := _loss_function __init__
                    [("predictions", FloatTensor predictions);
                     ("targets", LongTensor targets)] in
     let swapped := _loss_function __init__
                      [("targets", LongTensor targets);
                       ("predictions", FloatTensor predictions)] in
     first = nll_loss predictions targets /\
     swapped = _criterion __init__ [LongTensor targets; FloatTensor predictions] /\
     is_ok swapped = false /\
     (is_ok first = true -> swapped <> first)).
Proof.
  split; [|split].
  - intros self kw kw' Hvalues. unfold _loss_function, values. now rewrite Hvalues.
  - reflexivity.
  - intros predictions targets first swapped.
    repeat split. intros Hok Heq. subst first swapped.
    rewrite <- Heq in Hok. discriminate Hok.
Qed.

Lemma C8_values_in_call_order_witness :
  let predictions := FloatTensor (Tensor [1; 2]%nat [-1; -2]%Q) in
  let targets := LongTensor (Tensor [1]%nat [0%Z]) in
  _loss_function __init__ [("input", predictions); ("target", targets)]
  = _loss_function __init__ [("predictions", predictions); ("targets", targets)]
  /\
  _loss_function __init__ [("targets", targets); ("predictions", predictions)]
  <> _loss_function __init__ [("predictions", predictions); ("targets", targets)].
Proof.
  intros predictions targets.
  destruct C8_values_in_call_order as (Hnames & _ & Horder). split.
  - apply Hnames. reflexivity.
  - apply (Horder (Tensor [1; 2]%nat [-1; -2]%Q) (Tensor [1]%nat [0%Z])).
    reflexivity.
Defined.

Lemma Qsum_nonpos (xs : list Q) :
  Forall (fun x => (x <= 0)%Q) xs -> (Qsum xs <= 0)%Q.
Proof.
  induction 1 as [|x xs Hx _ IH]; simpl; [apply Qle_refl|].
  change 0%Q with (0 + 0)%Q. now apply Qplus_le_compat.
Qed.

Lemma mean_neg_nonneg (xs : list Q) :
  xs <> [] -> Forall (fun x => (x <= 0)%Q) xs ->
  exists q, mean_neg xs = Finite q /\ (0 <= q)%Q.
Proof.
  intros Hne Hxs. destruct xs as [|x xs]; [congruence|].
  eexists. split; [reflexivity|].
  apply Qle_shift_div_l.
  - unfold Qlt. simpl. lia.
  - rewrite Qmult_0_l. apply (Qopp_le_compat _ 0), Qsum_nonpos, Hxs.
Qed.

(** With every target in range and enough rows, one entry is picked from
    every row. *)
Lemma gather_in_range (D : nat) (targets : list Z) :
  forall rows : list Q,
    length rows = (length targets * D)%nat ->
    Forall (fun y => (0 <= y < Z.of_nat D)%Z) targets ->
    Forall (fun x => (x <= 0)%Q) rows ->
    exists xs, gather D rows targets = Some xs /\
               length xs = length targets /\
               Forall (fun x => (x <= 0)%Q) xs.
Proof.
  induction targets as [|y ys IH]; intros rows Hlen Hys Hrows.
  - exists []. repeat split. constructor.
  - apply Forall_cons in Hys as [Hy Hys]. simpl in Hlen. simpl.
    assert (Hign : (y =? ignore_index)%Z = false)
      by (apply Z.eqb_neq; unfold ignore_index; lia).
    assert (Hin : ((0 <=? y)%Z && (y <? Z.of_nat D)%Z) = true)
      by (apply andb_true_iff; split; [apply Z.leb_le | apply Z.ltb_lt]; lia).
    rewrite Hign, Hin.
    destruct (lookup_lt_is_Some_2 rows (Z.to_nat y)) as [x Hx]; [lia|].
    destruct (IH (drop D rows)) as (xs & Hg & Hl & Hxs).
    + rewrite length_drop. lia.
    + assumption.
    + now apply Forall_drop.
    + rewrite Hx, Hg. simpl. exists (x :: xs). repeat split.
      * simpl. now rewrite Hl.
      * constructor; [|assumption].
        rewrite Forall_forall in Hrows. apply Hrows.
        eapply list_elem_of_lookup_2, Hx.
Qed.

(** C5 as stated does not hold: the criterion does not require its input to
    hold log-probabilities, and on the prediction [1] for the only class the
    loss is [-1]. *)
Lemma C5_positive_prediction :
  let predictions := Tensor [1; 1]%nat [1%Q] in
  let targets := Tensor [1]%nat [0%Z] in
  well_formed predictions /\ well_formed targets /\
  Forall (fun y => (0 <= y < 1)%Z) (data targets) /\
  exists q,
    _loss_function __init__
      [("predictions", FloatTensor predictions); ("targets", LongTensor targets)]
    = Ok (Finite q) /\ (q < 0)%Q.
Proof.
  repeat split.
  - repeat constructor; lia.
  - exists (-1)%Q. split; reflexivity.
Qed.

(** C5 (amended).  For predictions of shape ([B], [D]) with [B] at least 1
    whose entries are at most 0, as log-probabilities are, and integer
    targets of shape ([B]) with every value in [[0, D)], the loss function of
    NLLLoss returns a scalar that is not negative; for targets of shape
    ([B']) with [B'] different from [B] it raises. *)
Theorem C5_loss_of_log_probabilities (B D : nat) (predictions : tensor Q)
    (targets : tensor Z) :
  shape predictions = [B; D] -> well_formed predictions -> well_formed targets ->
  let loss := _loss_function __init__
                [("predictions", FloatTensor predictions);
                 ("targets", LongTensor targets)] in
  (shape targets = [B] -> (1 <= B)%nat ->
   Forall (fun x => (x <= 0)%Q) (data predictions) ->
   Forall (fun y => (0 <= y < Z.of_nat D)%Z) (data targets) ->
   exists q, loss = Ok (Finite q) /\ (0 <= q)%Q)
  /\
  (forall B', shape targets = [B'] -> B' <> B ->
   loss = Raise (ValueError "Expected input batch_size to match target batch_size")).
Proof.
  intros Hshape Hwf Hwft loss.
  unfold well_formed in Hwf, Hwft. rewrite Hshape in Hwf. simpl in Hwf.
  subst loss. unfold _loss_function, __init__. simpl. unfold nll_loss.
  rewrite Hshape. split.
  - intros Htargets HB Hlog Hrange.
    rewrite Htargets in Hwft |- *. simpl in Hwft. rewrite Nat.eqb_refl.
    destruct (gather_in_range D (data targets) (data predictions))
      as (xs & -> & Hlen & Hxs); [lia | assumption | assumption |].
    apply mean_neg_nonneg in Hxs as (q & -> & Hq).
    + now exists q.
    + intros ->. simpl in Hlen. lia.
  - intros B' -> Hne. apply Nat.eqb_neq in Hne. rewrite Nat.eqb_sym in Hne.
    now rewrite Hne.
Qed.

Lemma C5_loss_of_log_probabilities_witness :
  let predictions := Tensor [2; 2]%nat [-1; -3; -2; -1]%Q in
  (exists q,
     _loss_function __init__
       [("predictions", FloatTensor predictions);
        ("targets", LongTensor (Tensor [2]%nat [0; 1]%Z))]
     = Ok (Finite q) /\ (0 <= q)%Q)
  /\
  _loss_function __init__
    [("predictions", FloatTensor predictions);
     ("targets", LongTensor (Tensor [3]%nat [0; 1; 1]%Z))]
  = Raise (ValueError "Expected input batch_size to match target batch_size").
Proof.
  intros predictions. split.
  - apply (proj1 (C5_loss_of_log_probabilities 2 2 predictions
                    (Tensor [2]%nat [0; 1]%Z) eq_refl eq_refl eq_refl));
      [reflexivity | lia | |].
    + repeat constructor; unfold Qle; simpl; lia.
    + repeat constructor; lia.
  - apply (proj2 (C5_loss_of_log_probabilities 2 2 predictions
                    (Tensor [3]%nat [0; 1; 1]%Z) eq_refl eq_refl eq_refl) 3%nat);
      [reflexivity | lia].
Defined.

End Loss.

(* ===================================================================== *)
(** * The classifier network                                              *)
(* ===================================================================== *)

(** The shapes through [LeNet5.model], for a batch of [N] images:
    ([N], 1, 32, 32) to ([N], 10). *)
Lemma LeNet5_forward_shape (N : nat) :
  LeNet5.forward [N; 1; 32; 32]%nat = Ok [N; 10]%nat.
Proof. reflexivity. Qed.

(** Images of another size are refused (here by the third convolution). *)
Example LeNet5_forward_28 :
  is_ok (LeNet5.forward [1; 1; 28; 28]%nat) = false.
Proof. reflexivity. Qed.


(** ** Which images the network accepts *)

Section Classifier.

Import Torch.
Local Open Scope nat_scope.

Lemma Sequential_cons (l : layer) (ls : list layer) (sh : list nat) :
  Sequential (l :: ls) sh = (sh' ← layer_shape l sh; Sequential ls sh').
Proof. reflexivity. Qed.

Lemma bind_shape_ok (sh : list nat) (f : list nat -> result (list nat)) :
  (sh' ← Ok sh; f sh') = f sh.
Proof. reflexivity. Qed.

Lemma bind_shape_error (f : list nat -> result (list nat)) :
  (sh' ← shape_error; f sh') = shape_error.
Proof. reflexivity. Qed.

Lemma Conv2d_shape (cin cout kh kw N C H W : nat) :
  layer_shape (Conv2d cin cout kh kw) [N; C; H; W]
  = if (C =? cin) && (kh <=? H) && (kw <=? W)
    then Ok [N; cout; H - kh + 1; W - kw + 1]
    else shape_error.
Proof. reflexivity. Qed.

Lemma MaxPool2d_shape (kh kw stride N C H W : nat) :
  layer_shape (MaxPool2d kh kw stride) [N; C; H; W]
  = if (kh <=? H) && (kw <=? W) && (1 <=? stride)
    then Ok [N; C; (H - kh) / stride + 1; (W - kw) / stride + 1]
    else shape_error.
Proof. reflexivity. Qed.

Lemma ReLU_shape (sh : list nat) : layer_shape ReLU sh = Ok sh.
Proof. reflexivity. Qed.

Lemma Flatten_shape (N : nat) (rest : list nat) :
  layer_shape Flatten (N :: rest) = Ok [N; numel rest].
Proof. reflexivity. Qed.

Lemma Linear_shape (fin fout N F : nat) :
  layer_shape (Linear fin fout) [N; F]
  = if F =? fin then Ok [N; fout] else shape_error.
Proof. reflexivity. Qed.

Lemma LogSoftmax_shape (N F : nat) : layer_shape (LogSoftmax 1) [N; F] = Ok [N; F].
Proof. reflexivity. Qed.

Ltac layer_equation :=
  rewrite Sequential_cons;
  first [ rewrite Conv2d_shape | rewrite MaxPool2d_shape | rewrite ReLU_shape
        | rewrite Flatten_shape | rewrite Linear_shape | rewrite LogSoftmax_shape ].

(** A layer that takes every shape. *)
Ltac free := layer_equation; rewrite bind_shape_ok.

(** A layer that checks its input. *)
Ltac guarded :=
  layer_equation;
  lazymatch goal with
  | |- context [if ?c then Ok _ else shape_error] =>
      let E := fresh "E" in
      destruct c eqn:E; [rewrite bind_shape_ok | rewrite bind_shape_error; discriminate]
  end.

Ltac to_prop :=
  repeat match goal with
    | H : _ && _ = true |- _ => apply andb_true_iff in H as [? ?]
    | H : (_ =? _) = true |- _ => apply Nat.eqb_eq in H
    | H : (_ <=? _) = true |- _ => apply Nat.leb_le in H
    end.

(** Halving by its quotient and remainder. *)
Ltac halves :=
  repeat match goal with
    | H : context [?x / 2] |- _ =>
        pose proof (Nat.div_mod_eq x 2);
        pose proof (Nat.mod_upper_bound x 2 ltac:(lia));
        let q := fresh "q" in
        let r := fresh "r" in
        set (q := x / 2) in *; set (r := x mod 2) in *; clearbody q r
    end.

(** What [forward] asks of a batch of images it accepts. *)
Lemma LeNet5_forward_inv (N C H W : nat) (out : list nat) :
  LeNet5.forward [N; C; H; W] = Ok out ->
  C = 1 /\ 32 <= H <= 35 /\ 32 <= W <= 35 /\ out = [N; 10].
Proof.
  unfold LeNet5.forward, LeNet5.model.
  guarded. free. guarded. guarded. free. guarded. guarded. free. free. guarded. free. guarded. free.
  intros [= <-]. to_prop.
  match goal with
  | E : numel [_; ?a; ?b] = _ |- _ =>
      change (120 * (a * (b * 1)) = 120) in E;
      assert (Hxy : forall x y, 1 <= x -> 1 <= y -> 120 * (x * (y * 1)) = 120 ->
                            x = 1 /\ y = 1) by (intros; nia);
      destruct (Hxy a b) as [Ha Hb]; [lia | lia | exact E |];
      clear E Hxy
  end.
  halves. repeat split; lia.
Qed.

(** X12.  [forward] on a batch of [N] images with [C] channels, [H] rows
    and [W] columns returns exactly when [C] is 1 and [H] and [W] are
    between 32 and 35; what it then returns has shape ([N], 10).  Every other
    size of image is refused by one of the layers. *)
Theorem LeNet5_forward_accepts (N C H W : nat) (out : list nat) :
  LeNet5.forward [N; C; H; W] = Ok out <->
  C = 1 /\ 32 <= H <= 35 /\ 32 <= W <= 35 /\ out = [N; 10].
Proof.
  split; [apply LeNet5_forward_inv|].
  intros (-> & HH & HW & ->).
  assert (H = 32 \/ H = 33 \/ H = 34 \/ H = 35) as HH' by lia.
  assert (W = 32 \/ W = 33 \/ W = 34 \/ W = 35) as HW' by lia.
  clear HH HW.
  destruct HH' as [-> | [-> | [-> | ->]]], HW' as [-> | [-> | [-> | ->]]];
    reflexivity.
Qed.

Lemma LeNet5_forward_accepts_witness :
  LeNet5.forward [2; 1; 33; 35] = Ok [2; 10].
Proof.
  apply (proj2 (LeNet5_forward_accepts 2 1 33 35 [2; 10])).
  repeat split; lia.
Defined.

End Classifier.

(** ** When the loss is defined *)

Section LossDomain.

Import Torch NLLLoss.

Lemma gather_valid (D : nat) (targets : list Z) :
  forall rows : list Q,
    length rows = (length targets * D)%nat ->
    Forall (valid_target D) targets ->
    exists xs, gather D rows targets = Some xs.
Proof.
  induction targets as [|y ys IH]; intros rows Hlen Hys.
  - now exists [].
  - apply Forall_cons in Hys as [Hy Hys]. simpl in Hlen.
    destruct (IH (drop D rows)) as (xs & Hg);
      [rewrite length_drop; lia | assumption |].
    simpl.
    destruct (y =? ignore_index)%Z eqn:Hign; [now exists xs|].
    apply Z.eqb_neq in Hign. destruct Hy as [?|Hy]; [congruence|].
    rewrite (proj2 (andb_true_iff _ _))
      by (split; [apply Z.leb_le | apply Z.ltb_lt]; lia).
    destruct (lookup_lt_is_Some_2 rows (Z.to_nat y)) as [x Hx]; [lia|].
    rewrite Hx, Hg. now exists (x :: xs).
Qed.




(** X14.  The classifier and the loss fit: predictions of the shape
    [LeNet5.forward] returns for a batch of images hold ten entries per
    image, and with one class in [[0, 10)] per image as targets the loss
    function takes them and returns a loss. *)
Theorem LeNet5_predictions_loss (N H W : nat) (predictions : tensor Q)
    (targets : tensor Z) :
  LeNet5.forward [N; 1; H; W]%nat = Ok (shape predictions) ->
  well_formed predictions -> well_formed targets ->
  shape targets = [N] ->
  Forall (fun y => (0 <= y < 10)%Z) (data targets) ->
  length (data predictions) = (N * 10)%nat /\
  exists s,
    _loss_function __init__
      [("predictions", FloatTensor predictions); ("targets", LongTensor targets)]
    = Ok s.
Proof.
  intros Hfwd Hwf Hwft Htargets Hrange.
  apply LeNet5_forward_inv in Hfwd as (_ & _ & _ & Hshape).
  unfold well_formed in Hwf, Hwft. rewrite Hshape in Hwf. rewrite Htargets in Hwft.
  simpl in Hwf, Hwft. split; [lia|].
  unfold _loss_function, __init__. simpl. unfold nll_loss.
  rewrite Hshape, Htargets, Nat.eqb_refl.
  destruct (gather_valid 10 (data targets) (data predictions))
    as (xs & ->); [lia | | now eexists].
  eapply Forall_impl; [exact Hrange|]. intros y Hy. right. simpl in Hy. lia.
Qed.

Lemma LeNet5_predictions_loss_witness :
  let predictions := Tensor [1; 10]%nat [-3; -3; -3; -1; -3; -3; -3; -3; -3; -3]%Q in
  exists s,
    _loss_function __init__
      [("predictions", FloatTensor predictions);
       ("targets", LongTensor (Tensor [1]%nat [3%Z]))]
    = Ok s.
Proof.
  intros predictions.
  apply (LeNet5_predictions_loss 1 32 32 predictions (Tensor [1]%nat [3%Z])
           eq_refl eq_refl eq_refl eq_refl).
  repeat constructor; lia.
Defined.

End LossDomain.

(** ** What the network returns *)

Section Predictions.

Import Torch.

(** The layers on small inputs. *)

(** A 2 x 2 kernel that adds the two entries of a diagonal, on an image
    with two rows and three columns. *)
Example Conv2d_values :
  layer_values (Conv2d 1 1 2 2) {| weight := [1; 0; 0; 1]%R; bias := [10%R] |}
    [1; 1; 2; 3]%nat [1; 2; 3; 4; 5; 6]%R
  = [16; 18]%R.
Proof.
  unfold layer_values, tabulate, entry, ravel. simpl. repeat f_equal; lra.
Qed.

Example MaxPool2d_values :
  layer_values (MaxPool2d 2 2 2) no_parameters
    [1; 1; 2; 4]%nat [1; 5; 2; 0; 3; 4; 7; 6]%R
  = [5; 7]%R.
Proof.
  unfold layer_values, tabulate, entry, ravel, Rmax_list. simpl.
  repeat f_equal; unfold Rmax; repeat (destruct (Rle_dec _ _)); lra.
Qed.

Example Linear_values :
  layer_values (Linear 2 1) {| weight := [2; 3]%R; bias := [1%R] |}
    [1; 2]%nat [10; 100]%R
  = [321%R].
Proof.
  unfold layer_values, tabulate, entry, ravel. simpl. repeat f_equal; lra.
Qed.

Example LogSoftmax_values :
  layer_values (LogSoftmax 1) no_parameters [1; 2]%nat [0; 0]%R
  = [(- ln 2)%R; (- ln 2)%R].
Proof.
  unfold layer_values, tabulate, entry, ravel. simpl. rewrite exp_0.
  replace (1 + (1 + 0))%R with 2%R by lra. repeat f_equal; lra.
Qed.

Lemma flat_map_length_blocks {A B} (F : A -> list B) (L : nat) (l : list A) :
  (forall a, length (F a) = L) -> length (flat_map F l) = (length l * L)%nat.
Proof.
  intros HF. induction l as [|a l IH]; [reflexivity|].
  simpl. now rewrite length_app, HF, IH.
Qed.

Lemma tabulate_length (sh : list nat) :
  forall f, length (tabulate sh f) = numel sh.
Proof.
  induction sh as [|d sh IH]; intros f; [reflexivity|].
  simpl. rewrite (flat_map_length_blocks _ (numel sh)) by (intros; apply IH).
  now rewrite length_seq.
Qed.













(** ** Every tensor on the way has as many entries as its shape says *)

Lemma numel_app (sh1 sh2 : list nat) : numel (sh1 ++ sh2) = (numel sh1 * numel sh2)%nat.
Proof.
  induction sh1 as [|d sh1 IH]; simpl; [lia|].
  unfold numel in *. simpl. rewrite IH. lia.
Qed.

#[local] Arguments tabulate : simpl never.

(** A layer that takes a tensor with as many entries as its shape says
    returns one. *)
Lemma layer_forward_well_formed (l : layer) (p : parameters) (x y : tensor R) :
  layer_forward l p x = Ok y -> well_formed x -> well_formed y.
Proof.
  unfold layer_forward, well_formed. destruct x as [sh x]. simpl.
  destruct (layer_shape l sh) as [sh'|] eqn:Hsh; [|discriminate].
  simpl. intros [= <-] Hx. simpl.
  destruct l as [cin cout kh kw| |kh kw stride| |fin fout|dim]; simpl in Hsh.
  - destruct sh as [|N [|C [|H [|W [|? ?]]]]]; try discriminate.
    destruct (_ && _); [|discriminate]. injection Hsh as <-.
    simpl. apply tabulate_length.
  - injection Hsh as <-. simpl. now rewrite length_map.
  - destruct sh as [|N [|C [|H [|W [|? ?]]]]]; try discriminate.
    destruct (_ && _); [|discriminate]. injection Hsh as <-.
    simpl. apply tabulate_length.
  - destruct sh as [|N rest]; injection Hsh as <-; simpl in *; [assumption|].
    unfold numel in *. simpl in *. lia.
  - destruct (reverse sh) as [|last front] eqn:Hrev; [discriminate|].
    destruct (last =? fin)%nat; [|discriminate]. injection Hsh as <-.
    simpl. rewrite Hrev. simpl. rewrite tabulate_length, reverse_cons, numel_app.
    reflexivity.
  - destruct (dim <? length sh)%nat eqn:Hdim; [|discriminate]. injection Hsh as <-.
    apply Nat.ltb_lt in Hdim.
    simpl. rewrite tabulate_length.
    rewrite <- (take_drop dim sh) at 4.
    rewrite numel_app.
    destruct (drop dim sh) as [|d rest] eqn:Hdrop.
    + apply (f_equal length) in Hdrop. rewrite length_drop in Hdrop. simpl in Hdrop. lia.
    + assert (nth dim sh 1%nat = d) as ->.
      { rewrite <- (take_drop dim sh), Hdrop.
        rewrite app_nth2 by (rewrite length_take; lia).
        rewrite length_take. replace (dim - dim `min` length sh)%nat with 0%nat by lia.
        reflexivity. }
      assert (drop (S dim) sh = rest) as ->.
      { change (S dim) with (1 + dim)%nat. rewrite Nat.add_comm, <- drop_drop, Hdrop.
        reflexivity. }
      unfold numel. simpl. lia.
Qed.

Lemma Sequential_forward_well_formed (ls : list (layer * parameters)) :
  forall x y : tensor R,
    Sequential_forward ls x = Ok y -> well_formed x -> well_formed y.
Proof.
  induction ls as [|[l p] ls IH]; intros x y; simpl.
  - now intros [= <-].
  - destruct (layer_forward l p x) as [z|] eqn:Hz; [|discriminate]. simpl.
    intros Hy Hx. apply (IH z y Hy). exact (layer_forward_well_formed l p x z Hz Hx).
Qed.

End Predictions.
